(** * El Camino del Desierto: the escape-room engine of bot_escape_san_antonio.py

    A shallow embedding of the game logic of the bot (normalizer, scoring,
    session record, room-10 validator, hint command, button and text
    handlers) and the properties of its specification that were checked
    against it. *)

From Stdlib Require Import ZArith NArith List String Ascii Bool Lia.
From stdpp Require Import base option list gmap.
Import ListNotations.
Local Open Scope Z_scope.

(** ** Python strings

    A Python [str] is a sequence of Unicode code points. *)

Abbreviation str := (list N).

(** An ASCII literal of the source, as code points. *)
Definition lit (s : string) : str := map N_of_ascii (list_ascii_of_string s).

Definition str_eqb (a b : str) : bool := bool_decide (a = b).

(** [x in l] on a list of strings. *)
Definition str_in (x : str) (l : list str) : bool := bool_decide (x ∈ l).

(** ** The Unicode data used by [normalize]

    [str.lower], [unicodedata.normalize], [unicodedata.category] and the
    whitespace test of [str.strip] / [str.split] belong to the Python
    runtime, not to the bot.  The embedding takes the character database
    as a parameter: the algorithms (stripping, splitting, canonical
    ordering) are written out, the per-character data is a field. *)

Record Unicode := {
  (** [str.lower()]: works on the whole string (final sigma, and one code
      point may lower to several). *)
  str_lower : str -> str;
  (** full canonical decomposition of one code point *)
  decomposition : N -> str;
  (** [unicodedata.combining(c)], the canonical combining class *)
  combining : N -> N;
  (** [unicodedata.category(c) == "Mn"] *)
  is_Mn : N -> bool;
  (** [c.isspace()] *)
  isspace : N -> bool;
  (** U+0020 is white space and is not a mark. *)
  space_isspace : isspace 32%N = true;
  space_not_Mn : is_Mn 32%N = false
}.

Section Strings.

Context (U : Unicode).

(** [text.strip()] *)
Fixpoint lstrip (s : str) : str :=
  match s with
  | [] => []
  | c :: s' => if isspace U c then lstrip s' else s
  end.

Definition rstrip (s : str) : str := rev (lstrip (rev s)).

Definition strip (s : str) : str := rstrip (lstrip s).

(** [text.split()]: the maximal runs of non-white-space characters. *)
Fixpoint split (s : str) : list str :=
  match s with
  | [] => []
  | c :: s' =>
      if isspace U c then split s'
      else match s' with
           | [] => [[c]]
           | d :: _ =>
               if isspace U d then [c] :: split s'
               else match split s' with
                    | w :: ws => (c :: w) :: ws
                    | [] => [[c]]
                    end
           end
  end.

(** [sep.join(parts)] *)
Fixpoint join (sep : str) (parts : list str) : str :=
  match parts with
  | [] => []
  | [w] => w
  | w :: ws => w ++ sep ++ join sep ws
  end.

(** [raw.split(",")]: split at every occurrence of the separator, empty
    pieces included. *)
Fixpoint split_on (sep : N) (s : str) : list str :=
  match s with
  | [] => [[]]
  | c :: s' =>
      if N.eqb c sep then [] :: split_on sep s'
      else match split_on sep s' with
           | w :: ws => (c :: w) :: ws
           | [] => [[c]]
           end
  end.

(** Canonical ordering: inside every run of characters with a non-zero
    combining class the characters are sorted by class, stably. *)
Fixpoint reorder_insert (c : N) (l : str) : str :=
  match l with
  | [] => [c]
  | d :: l' =>
      if (0 <? combining U d)%N && (combining U d <? combining U c)%N
      then d :: reorder_insert c l'
      else c :: l
  end.

Definition canonical_order (s : str) : str := foldr reorder_insert [] s.

(** [unicodedata.normalize("NFD", text)] *)
Definition nfd (s : str) : str := canonical_order (flat_map (decomposition U) s).

Definition drop_Mn (s : str) : str := List.filter (fun c => negb (is_Mn U c)) s.

(** [normalize] (source lines 73-79). *)
Definition normalize (text : str) : str :=
  let text := str_lower U (strip text) in
  let text := drop_Mn (nfd text) in
  join [32%N] (split text).

End Strings.

(** ** An excerpt of the Unicode Character Database

    The data of Unicode for ASCII, the accented letters of Spanish with
    the three marks they decompose to (U+0301, U+0303, U+0308, class 230),
    U+034F (the combining grapheme joiner, class 0; like the whole block
    U+0300-U+036F it has category Mn), and three spacing marks (category
    Mc) with a non-zero combining class: U+302E (224), U+1D165 (216) and
    U+1D16D (226).  On strings of these characters the functions below
    agree with Python's. *)
Module Excerpt.

Definition lower1 (c : N) : N :=
  if ((65 <=? c) && (c <=? 90))%N then (c + 32)%N
  else if bool_decide (c ∈ [193; 201; 205; 209; 211; 218; 220]%N) then (c + 32)%N
  else c.

Definition decomp (c : N) : str :=
  if (c =? 225)%N then [97; 769]%N        (* a acute *)
  else if (c =? 233)%N then [101; 769]%N  (* e acute *)
  else if (c =? 237)%N then [105; 769]%N  (* i acute *)
  else if (c =? 241)%N then [110; 771]%N  (* n tilde *)
  else if (c =? 243)%N then [111; 769]%N  (* o acute *)
  else if (c =? 250)%N then [117; 769]%N  (* u acute *)
  else if (c =? 252)%N then [117; 776]%N  (* u diaeresis *)
  else [c].

Definition ccc (c : N) : N :=
  if bool_decide (c ∈ [769; 771; 776]%N) then 230%N
  else if (c =? 12334)%N then 224%N      (* U+302E *)
  else if (c =? 119141)%N then 216%N     (* U+1D165 *)
  else if (c =? 119149)%N then 226%N     (* U+1D16D *)
  else 0%N.

Definition nonspacing_mark (c : N) : bool := ((768 <=? c) && (c <=? 879))%N.

Definition whitespace (c : N) : bool :=
  ((9 <=? c) && (c <=? 13) || (28 <=? c) && (c <=? 32))%N
  || bool_decide (c ∈ [133; 160; 5760; 8232; 8233; 8239; 8287; 12288]%N)
  || ((8192 <=? c) && (c <=? 8202))%N.

Definition ucd : Unicode :=
  {| str_lower := map lower1;
     decomposition := decomp;
     combining := ccc;
     is_Mn := nonspacing_mark;
     isspace := whitespace;
     space_isspace := eq_refl;
     space_not_Mn := eq_refl |}.

End Excerpt.

(** ** The session record

    The dictionary stored under ["escape"].  A key that is absent and a key
    that holds the value written by [init_state] are read alike by every
    handler (each read is [state.get(key, default)] or [setdefault] with
    that same default), so a field holds the value that is read.  The one
    exception is ["start_ts"], whose default is the clock at the time of
    the read: it is [None] when the key is absent.  [mode] and
    [in_optional] are [None] both for an absent key and for Python's
    [None]. *)

Inductive Mode := MODE_INDIVIDUAL | MODE_GROUP.

(** The keys of [OPTIONALS]. *)
Inductive OptId := OptA | OptB | OptC.

#[global] Instance Mode_eq_dec : EqDecision Mode.
Proof. solve_decision. Defined.

#[global] Instance OptId_eq_dec : EqDecision OptId.
Proof. solve_decision. Defined.

Record Escape := {
  mode : option Mode;
  room : Z;
  inventory : list str;
  start_ts : option Z;
  penalty_sec : Z;
  hints_used : gmap Z Z;
  attempts : gmap Z Z;
  completed : bool;
  optional_done : list OptId;
  in_optional : option OptId;
  free_hints : Z;
  jokers : Z;
  s4_step : Z
}.

(** The empty dictionary [{}]. *)
Definition empty_dict : Escape :=
  {| mode := None; room := 0; inventory := []; start_ts := None;
     penalty_sec := 0; hints_used := ∅; attempts := ∅; completed := false;
     optional_done := []; in_optional := None; free_hints := 0; jokers := 0;
     s4_step := 0 |}.

(** The record written by [init_state] (source lines 371-385). *)
Definition fresh (now : Z) : Escape :=
  {| mode := None; room := 0; inventory := []; start_ts := Some now;
     penalty_sec := 0; hints_used := ∅; attempts := ∅; completed := false;
     optional_done := []; in_optional := None; free_hints := 0; jokers := 0;
     s4_step := 0 |}.

(** Assignments [state[key] = v]. *)
Definition set_mode (v : option Mode) (s : Escape) : Escape :=
  {| mode := v; room := room s; inventory := inventory s;
     start_ts := start_ts s; penalty_sec := penalty_sec s;
     hints_used := hints_used s; attempts := attempts s;
     completed := completed s; optional_done := optional_done s;
     in_optional := in_optional s; free_hints := free_hints s;
     jokers := jokers s; s4_step := s4_step s |}.

Definition set_room (v : Z) (s : Escape) : Escape :=
  {| mode := mode s; room := v; inventory := inventory s;
     start_ts := start_ts s; penalty_sec := penalty_sec s;
     hints_used := hints_used s; attempts := attempts s;
     completed := completed s; optional_done := optional_done s;
     in_optional := in_optional s; free_hints := free_hints s;
     jokers := jokers s; s4_step := s4_step s |}.

Definition set_inventory (v : list str) (s : Escape) : Escape :=
  {| mode := mode s; room := room s; inventory := v;
     start_ts := start_ts s; penalty_sec := penalty_sec s;
     hints_used := hints_used s; attempts := attempts s;
     completed := completed s; optional_done := optional_done s;
     in_optional := in_optional s; free_hints := free_hints s;
     jokers := jokers s; s4_step := s4_step s |}.

Definition set_start_ts (v : option Z) (s : Escape) : Escape :=
  {| mode := mode s; room := room s; inventory := inventory s;
     start_ts := v; penalty_sec := penalty_sec s;
     hints_used := hints_used s; attempts := attempts s;
     completed := completed s; optional_done := optional_done s;
     in_optional := in_optional s; free_hints := free_hints s;
     jokers := jokers s; s4_step := s4_step s |}.

Definition set_penalty_sec (v : Z) (s : Escape) : Escape :=
  {| mode := mode s; room := room s; inventory := inventory s;
     start_ts := start_ts s; penalty_sec := v;
     hints_used := hints_used s; attempts := attempts s;
     completed := completed s; optional_done := optional_done s;
     in_optional := in_optional s; free_hints := free_hints s;
     jokers := jokers s; s4_step := s4_step s |}.

Definition set_hints_used (v : gmap Z Z) (s : Escape) : Escape :=
  {| mode := mode s; room := room s; inventory := inventory s;
     start_ts := start_ts s; penalty_sec := penalty_sec s;
     hints_used := v; attempts := attempts s;
     completed := completed s; optional_done := optional_done s;
     in_optional := in_optional s; free_hints := free_hints s;
     jokers := jokers s; s4_step := s4_step s |}.

Definition set_attempts (v : gmap Z Z) (s : Escape) : Escape :=
  {| mode := mode s; room := room s; inventory := inventory s;
     start_ts := start_ts s; penalty_sec := penalty_sec s;
     hints_used := hints_used s; attempts := v;
     completed := completed s; optional_done := optional_done s;
     in_optional := in_optional s; free_hints := free_hints s;
     jokers := jokers s; s4_step := s4_step s |}.

Definition set_completed (v : bool) (s : Escape) : Escape :=
  {| mode := mode s; room := room s; inventory := inventory s;
     start_ts := start_ts s; penalty_sec := penalty_sec s;
     hints_used := hints_used s; attempts := attempts s;
     completed := v; optional_done := optional_done s;
     in_optional := in_optional s; free_hints := free_hints s;
     jokers := jokers s; s4_step := s4_step s |}.

Definition set_optional_done (v : list OptId) (s : Escape) : Escape :=
  {| mode := mode s; room := room s; inventory := inventory s;
     start_ts := start_ts s; penalty_sec := penalty_sec s;
     hints_used := hints_used s; attempts := attempts s;
     completed := completed s; optional_done := v;
     in_optional := in_optional s; free_hints := free_hints s;
     jokers := jokers s; s4_step := s4_step s |}.

Definition set_in_optional (v : option OptId) (s : Escape) : Escape :=
  {| mode := mode s; room := room s; inventory := inventory s;
     start_ts := start_ts s; penalty_sec := penalty_sec s;
     hints_used := hints_used s; attempts := attempts s;
     completed := completed s; optional_done := optional_done s;
     in_optional := v; free_hints := free_hints s;
     jokers := jokers s; s4_step := s4_step s |}.

Definition set_free_hints (v : Z) (s : Escape) : Escape :=
  {| mode := mode s; room := room s; inventory := inventory s;
     start_ts := start_ts s; penalty_sec := penalty_sec s;
     hints_used := hints_used s; attempts := attempts s;
     completed := completed s; optional_done := optional_done s;
     in_optional := in_optional s; free_hints := v;
     jokers := jokers s; s4_step := s4_step s |}.

Definition set_jokers (v : Z) (s : Escape) : Escape :=
  {| mode := mode s; room := room s; inventory := inventory s;
     start_ts := start_ts s; penalty_sec := penalty_sec s;
     hints_used := hints_used s; attempts := attempts s;
     completed := completed s; optional_done := optional_done s;
     in_optional := in_optional s; free_hints := free_hints s;
     jokers := v; s4_step := s4_step s |}.

Definition set_s4_step (v : Z) (s : Escape) : Escape :=
  {| mode := mode s; room := room s; inventory := inventory s;
     start_ts := start_ts s; penalty_sec := penalty_sec s;
     hints_used := hints_used s; attempts := attempts s;
     completed := completed s; optional_done := optional_done s;
     in_optional := in_optional s; free_hints := free_hints s;
     jokers := jokers s; s4_step := v |}.

(** ** Scoring (source lines 90-128) *)

(** What the handlers read from the outside world: the clock and whether
    the file sala3.png exists.  Every call of [now_ts()] is a reading of
    its own: [now_ts] is the clock where a record is created or a game
    started (source lines 375, 558, 572), [score_ts] and [score_ts'] are
    the two readings of [elapsed] (source line 91), in the order Python
    takes them. *)
Record Env := { now_ts : Z; score_ts : Z; score_ts' : Z; sala3_png : bool }.

(** [elapsed] (source lines 90-91) reads the clock twice: [now] is the left
    operand, [now'] the default of [state.get("start_ts", now_ts())], which
    Python evaluates after it, whether the key is there or not, and uses
    when the key is missing. *)
Definition elapsed (now now' : Z) (state : Escape) : Z :=
  (now - default now' (start_ts state)) + penalty_sec state.

(** [sum(d.values())] *)
Definition sum_values (d : gmap Z Z) : Z := map_fold (fun _ v acc => v + acc) 0 d.

Definition count_total_attempts (state : Escape) : Z := sum_values (attempts state).

Definition count_total_hints_used (state : Escape) : Z := sum_values (hints_used state).

Record Stats := {
  stats_score : Z;
  stats_time_sec : Z;
  stats_penalty_sec : Z;
  stats_hints_used : Z;
  stats_attempts : Z;
  stats_optional_done : Z
}.

Definition compute_score (now now' : Z) (state : Escape) : Stats :=
  let base := 1000 in
  let total_time := elapsed now now' state in
  let hints := count_total_hints_used state in
  let att := count_total_attempts state in
  let optional := Z.of_nat (length (optional_done state)) in
  let score := base in
  let score := score - total_time in
  let score := score - 40 * hints in
  let score := score - 5 * att in
  let score := score + 50 * optional in
  let score := if completed state then score + 200 else score in
  let score := if score <? 0 then 0 else score in
  {| stats_score := score;
     stats_time_sec := total_time;
     stats_penalty_sec := penalty_sec state;
     stats_hints_used := hints;
     stats_attempts := att;
     stats_optional_done := optional |}.

(** ** The catalog (source lines 146-364)

    The prompt and success texts are not part of any property; a message
    names the text it carries (see [Msg] below).  The hints are kept: the
    hint command indexes into them. *)

Record RoomData := {
  hints : list string;
  answers : option (list str);
  item : option str;
  image : bool
}.

Definition ROOMS (r : Z) : option RoomData :=
  match r with
  | 1 => Some {| hints := ["Empieza por el verbo principal: 'vende'.";
                           "La frase completa habla de desprenderse y ayudar a los pobres."];
                 answers := Some [lit "vende lo que tienes y dalo a los pobres"];
                 item := Some (lit "RENUNCIA"); image := false |}
  | 2 => Some {| hints := ["Elige la opción que encaja con el desprendimiento.";
                           "No se queda con la fortuna."];
                 answers := Some [lit "b"];
                 item := Some (lit "DESAPEGO"); image := false |}
  | 3 => Some {| hints := ["Es el lugar físico y simbólico del retiro.";
                           "Tiene 7 letras."];
                 answers := Some [lit "desierto"];
                 item := Some (lit "SOLEDAD"); image := true |}
  | 4 => Some {| hints := ["Contrario de soberbia.";
                           "Virtud relacionada con reconocer límites."];
                 answers := None;
                 item := Some (lit "FORTALEZA"); image := false |}
  | 5 => Some {| hints := ["Relacionado con respirar."; "Empieza por 'a'."];
                 answers := Some [lit "aliento"];
                 item := Some (lit "ORACION"); image := false |}
  | 6 => Some {| hints := ["Fue referente; la gente lo buscaba.";
                           "Aconsejaba a otros."];
                 answers := Some [lit "falso"];
                 item := Some (lit "COMUNIDAD"); image := false |}
  | 7 => Some {| hints := ["No acumular ni buscar fama.";
                           "La clave es la constancia."];
                 answers := Some [lit "b"];
                 item := Some (lit "SABIDURIA"); image := false |}
  | 8 => Some {| hints := ["Virtud esencial del cristianismo.";
                           "Empieza por 'c'."];
                 answers := Some [lit "caridad"];
                 item := Some (lit "COMPASION"); image := false |}
  | 9 => Some {| hints := ["Elige una de estas cuatro: humildad, fe, pobreza, perseverancia.";
                           "Escríbela tal cual."];
                 answers := Some [lit "humildad"; lit "fe"; lit "pobreza";
                                  lit "perseverancia"];
                 item := Some (lit "PAZ_INTERIOR"); image := false |}
  | 10 => Some {| hints := ["Una combinación válida: renuncia, oracion, sabiduria.";
                            "Otra válida: desapego, fortaleza, compasion."];
                  answers := None;
                  item := None; image := false |}
  | _ => None
  end%string.

(** The reward dictionary of an optional room: each key may be present. *)
Record Reward := {
  reward_free_hints : option Z;
  reward_jokers : option Z;
  reward_remove_penalty_sec : option Z
}.

Record OptionalData := {
  opt_answers : list str;
  reward : Reward;
  back_to : Z
}.

Definition OPTIONALS (o : OptId) : OptionalData :=
  match o with
  | OptA => {| opt_answers := [lit "escuchar"];
               reward := {| reward_free_hints := Some 1; reward_jokers := None;
                            reward_remove_penalty_sec := None |};
               back_to := 4 |}
  | OptB => {| opt_answers := [lit "b"];
               reward := {| reward_free_hints := None; reward_jokers := None;
                            reward_remove_penalty_sec := Some 60 |};
               back_to := 7 |}
  | OptC => {| opt_answers := [lit "compasion"];
               reward := {| reward_free_hints := None; reward_jokers := Some 1;
                            reward_remove_penalty_sec := None |};
               back_to := 9 |}
  end.

Definition OPTIONAL_OFFER_POINTS (r : Z) : option (OptId * Z) :=
  match r with
  | 3 => Some (OptA, 4)
  | 6 => Some (OptB, 7)
  | 8 => Some (OptC, 9)
  | _ => None
  end.

(** ** Messages sent to the chat

    One constructor per [reply_text] / [send_message] / [send_photo] of the
    source, with the data the text is built from. *)
Inductive Msg :=
| Intro                      (* INTRO, with the two mode buttons *)
| ConfirmRestart             (* "¿Reiniciar partida? ..." with restart_yes / restart_no *)
| UseStart                   (* "Usa /start y elige modo para comenzar." *)
| AlreadyCompleted           (* "Ya completaste el escape. Usa /reiniciar si quieres repetir." *)
| OptionalNoHint             (* "Esta sala opcional no tiene pista automática." *)
| NotStartedYet              (* "Aún no has comenzado. Usa /start." *)
| RoomWithoutHints           (* "Esta sala no tiene pistas." *)
| NoMoreHints                (* "No hay más pistas disponibles para esta sala." *)
| FreeHint (hint : string)   (* "PISTA: ... (Sin penalización: usaste una pista gratuita.)" *)
| PaidHint (hint : string) (penalty : Z)   (* "PISTA: ... Penalización: +penalty s" *)
| Inventario (inv : list str) (free jok : Z)
| Estado (m : option Mode) (r : Z) (stats : Stats) (free jok : Z)
| ModeActivated (m : Mode)   (* "Modo ... activado." with the button enter_1 *)
| GroupOnlyInGroups          (* "El modo GRUPO solo funciona dentro de un grupo de Telegram." *)
| Restarted                  (* "Partida reiniciada. Usa /start para comenzar de nuevo." *)
| NotRestarted               (* "De acuerdo. No se reinicia." *)
| OptionalAlreadyDone        (* "Esta sala opcional ya está completada." *)
| OptionalText (o : OptId)   (* OPTIONALS[o]["text"] *)
| OptionalRetry              (* "No es correcto. Inténtalo de nuevo." *)
| OptionalSuccess (o : OptId)  (* OPTIONALS[o]["success"] *)
| PressStart                 (* "Pulsa /start para comenzar." *)
| Room4Restart               (* "Reiniciamos la Sala 4. Tentación: SOBERBIA ..." *)
| Room4Retry                 (* "No es correcto. Inténtalo de nuevo (una palabra)." *)
| Room4Second                (* "Correcto. Siguiente tentación: RIQUEZA ..." *)
| Room4Third                 (* "Correcto. Siguiente tentación: MIEDO ..." *)
| Room4Done                  (* "Correcto. Has vencido las 3 tentaciones." *)
| Retry                      (* "No es correcto. Inténtalo de nuevo. (Usa /pista si lo necesitas.)" *)
| RoomSuccess (r : Z)        (* ROOMS[r]["success"] *)
| FinalReport (stats : Stats)  (* "PUNTUACION FINAL ..." *)
| OptionalOffer (o : OptId) (next_room : Z)  (* buttons opt_enter_o and opt_skip_o_next *)
| RoomText (r : Z)           (* ROOMS[r]["text"] *)
| RoomPhoto (r : Z)          (* sala3.png with ROOMS[r]["text"] as caption *)
| RoomTextNoImage (r : Z).   (* ROOMS[r]["text"] + "(AVISO: no encuentro sala3.png)" *)

(** ** Handlers as state transformers

    A handler reads and mutates the session record, sends messages, and
    may stop with an exception ([ROOMS[room]] on an unknown room, an index
    out of range); the mutations made before the exception stay.  The
    replies ([reply_text], [send_message], [send_photo]) are taken as
    delivered: [send] records the message and does not raise. *)

Inductive Exn := KeyError | IndexError.

Inductive Result (A : Type) :=
| Ret (a : A) (s : Escape) (out : list Msg)
| Exc (e : Exn) (s : Escape) (out : list Msg).

Arguments Ret {A} a s out.
Arguments Exc {A} e s out.

Definition M (A : Type) := Escape -> Result A.

Definition ret {A} (a : A) : M A := fun s => Ret a s [].

Definition bind {A B} (m : M A) (k : A -> M B) : M B :=
  fun s =>
    match m s with
    | Ret a s1 o1 =>
        match k a s1 with
        | Ret b s2 o2 => Ret b s2 (o1 ++ o2)
        | Exc e s2 o2 => Exc e s2 (o1 ++ o2)
        end
    | Exc e s1 o1 => Exc e s1 o1
    end.

Definition get : M Escape := fun s => Ret s s [].
Definition modify (f : Escape -> Escape) : M unit := fun s => Ret tt (f s) [].
Definition send (m : Msg) : M unit := fun s => Ret tt s [m].
Definition raise {A} (e : Exn) : M A := fun s => Exc e s [].

Notation "x <- m ;; k" := (bind m (fun x => k))
  (at level 100, m at next level, right associativity).
Notation "m ;; k" := (bind m (fun _ => k))
  (at level 100, right associativity).

(** The record and the messages a handler leaves behind, returned or
    raised. *)
Definition final {A} (r : Result A) : Escape :=
  match r with Ret _ s _ => s | Exc _ s _ => s end.

Definition sent {A} (r : Result A) : list Msg :=
  match r with Ret _ _ o => o | Exc _ _ o => o end.

(** [d[key]] on a dictionary, [l[i]] on a list (negative indices count
    from the end). *)
Definition subscript {A} (o : option A) : M A :=
  match o with Some a => ret a | None => raise KeyError end.

Definition list_index {A} (l : list A) (i : Z) : option A :=
  let n := Z.of_nat (length l) in
  if 0 <=? i then l !! Z.to_nat i
  else if - n <=? i then l !! Z.to_nat (n + i)
  else None.

Definition index {A} (l : list A) (i : Z) : M A :=
  match list_index l i with Some a => ret a | None => raise IndexError end.

(** [add_item] (source lines 397-402): nothing for [None] or the empty
    string, nothing for an item already held. *)
Definition add_item (it : option str) (state : Escape) : Escape :=
  match it with
  | None => state
  | Some [] => state
  | Some i =>
      if str_in i (inventory state) then state
      else set_inventory (inventory state ++ [i]) state
  end.

(** [inc(state, "attempts", room)] (source lines 404-407), the only key it
    is called with. *)
Definition inc_attempts (r : Z) (state : Escape) : Escape :=
  set_attempts (<[r := default 0 (attempts state !! r) + 1]> (attempts state)) state.

Section Game.

Context (U : Unicode).

(** ** Room 10 (source lines 412-426) *)

(** [[normalize(x) for x in parts if normalize(x)]] *)
Fixpoint nonempty_tokens (parts : list str) : list str :=
  match parts with
  | [] => []
  | x :: rest =>
      match normalize U x with
      | [] => nonempty_tokens rest
      | t => t :: nonempty_tokens rest
      end
  end.

(** The loop [for it in items: if it not in unique: unique.append(it)]. *)
Fixpoint unique_loop (unique items : list str) : list str :=
  match items with
  | [] => unique
  | it :: rest =>
      unique_loop (if str_in it unique then unique else unique ++ [it]) rest
  end.

(** [set(l).issubset(s)] *)
Definition issubset (l : list str) (s : gset str) : bool :=
  bool_decide ((list_to_set l : gset str) ⊆ s).

Definition validate_room_10 (raw : str) (inv : list str) (jok : Z) : bool * bool :=
  let inv_norm : gset str := list_to_set (map (normalize U) inv) in
  let items := nonempty_tokens (split_on 44 raw) in
  let unique := unique_loop [] items in
  if (3 <=? length unique)%nat then (issubset (take 3 unique) inv_norm, false)
  else if (length unique =? 2)%nat && (0 <? jok) then (issubset unique inv_norm, true)
  else (false, false).

(** ** Senders (source lines 431-457)

    [send_room] fetches the record with [st(context)] once more; no handler
    that calls it changes a mode first, so it is the record the caller
    works on. *)

Definition send_room (env : Env) (r : Z) : M unit :=
  modify (set_room r) ;;
  (if r =? 4 then modify (set_s4_step 0) else ret tt) ;;
  data <- subscript (ROOMS r) ;;
  if image data then
    if sala3_png env then send (RoomPhoto r) else send (RoomTextNoImage r)
  else send (RoomText r).

Definition offer_optional (opt_id : OptId) (next_room : Z) : M unit :=
  send (OptionalOffer opt_id next_room).

(** ** Commands (source lines 476-543); [st(context)] is applied by
    [with_st] below. *)

Definition cmd_inventario : M unit :=
  state <- get ;;
  send (Inventario (inventory state) (free_hints state) (jokers state)).

Definition cmd_estado (env : Env) : M unit :=
  state <- get ;;
  send (Estado (mode state) (room state)
               (compute_score (score_ts env) (score_ts' env) state)
               (free_hints state) (jokers state)).

Definition cmd_pista : M unit :=
  state <- get ;;
  match mode state with
  | None => send UseStart
  | Some _ =>
  if completed state then send AlreadyCompleted else
  match in_optional state with
  | Some _ => send OptionalNoHint
  | None =>
  let r := room state in
  if r =? 0 then send NotStartedYet else
  data <- subscript (ROOMS r) ;;
  match hints data with
  | [] => send RoomWithoutHints
  | _ =>
  let used := default 0 (hints_used state !! r) + 1 in
  modify (set_hints_used (<[r := used]> (hints_used state))) ;;
  let idx := used - 1 in
  if Z.of_nat (length (hints data)) <=? idx then send NoMoreHints else
  if 0 <? free_hints state then
    modify (fun s => set_free_hints (free_hints s - 1) s) ;;
    h <- index (hints data) idx ;;
    send (FreeHint h)
  else
    let penalty := 30 * used in
    modify (fun s => set_penalty_sec (penalty_sec s + penalty) s) ;;
    h <- index (hints data) idx ;;
    send (PaidHint h penalty)
  end end end.

(** ** Room 4 (source lines 615-649) *)

Definition expected : list str := [lit "humildad"; lit "pobreza"; lit "confianza"].

Definition handle_room4_sequence (env : Env) (user_text_norm : str) : M bool :=
  state <- get ;;
  if negb (room state =? 4) then ret false else
  let step := s4_step state in
  if (step <? 0) || (2 <? step) then
    modify (set_s4_step 0) ;;
    send Room4Restart ;;
    ret true
  else
    modify (inc_attempts 4) ;;
    e <- index expected step ;;
    if negb (str_eqb user_text_norm e) then
      send Room4Retry ;; ret true
    else if step =? 0 then
      modify (set_s4_step 1) ;; send Room4Second ;; ret true
    else if step =? 1 then
      modify (set_s4_step 2) ;; send Room4Third ;; ret true
    else
      modify (set_s4_step 3) ;;
      data <- subscript (ROOMS 4) ;;
      modify (add_item (item data)) ;;
      send Room4Done ;;
      send (RoomSuccess 4) ;;
      send_room env 5 ;;
      ret true.

(** ** The text handler (source lines 654-746), after [st(context)] *)

Definition mark_done (opt_id : OptId) (s : Escape) : Escape :=
  if bool_decide (opt_id ∈ optional_done s) then s
  else set_optional_done (optional_done s ++ [opt_id]) s.

Definition apply_reward (rw : Reward) : M unit :=
  (match reward_free_hints rw with
   | Some v => modify (fun s => set_free_hints (free_hints s + v) s)
   | None => ret tt
   end) ;;
  (match reward_jokers rw with
   | Some v => modify (fun s => set_jokers (jokers s + v) s)
   | None => ret tt
   end) ;;
  (match reward_remove_penalty_sec rw with
   | Some v => modify (fun s => set_penalty_sec (Z.max 0 (penalty_sec s - v)) s)
   | None => ret tt
   end).

Definition on_text_st (env : Env) (raw : str) : M unit :=
  state <- get ;;
  match mode state with
  | None => send UseStart
  | Some _ =>
  if completed state then send AlreadyCompleted else
  let txt := normalize U raw in
  match in_optional state with
  | Some opt_id =>
      let accepted := map (normalize U) (opt_answers (OPTIONALS opt_id)) in
      if negb (str_in txt accepted) then send OptionalRetry else
      modify (mark_done opt_id) ;;
      apply_reward (reward (OPTIONALS opt_id)) ;;
      modify (set_in_optional None) ;;
      send (OptionalSuccess opt_id) ;;
      send_room env (back_to (OPTIONALS opt_id))
  | None =>
      let r := room state in
      if r =? 0 then send PressStart else
      handled <- handle_room4_sequence env txt ;;
      if (handled : bool) then ret tt else
      modify (inc_attempts r) ;;
      data <- subscript (ROOMS r) ;;
      state <- get ;;
      let verdict :=
        if r =? 10 then validate_room_10 raw (inventory state) (jokers state)
        else (str_in txt (map (normalize U) (default [] (answers data))), false) in
      if negb (fst verdict) then send Retry else
      (if (r =? 10) && snd verdict
       then modify (fun s => set_jokers (Z.max 0 (jokers s - 1)) s)
       else ret tt) ;;
      modify (add_item (item data)) ;;
      send (RoomSuccess r) ;;
      if r =? 10 then
        modify (set_completed true) ;;
        state <- get ;;
        send (FinalReport (compute_score (score_ts env) (score_ts' env) state))
      else
        match OPTIONAL_OFFER_POINTS r with
        | Some (opt_id_offer, next_room) => offer_optional opt_id_offer next_room
        | None => send_room env (r + 1)
        end
  end end.

(** ** The two containers and [st(context)] (source lines 369-395) *)

(** [context.chat_data] and [context.user_data] as one user sees them in
    one chat: the key ["escape"] is present or not. *)
Record BotContext := { chat_data : option Escape; user_data : option Escape }.

Inductive Scope := ChatData | UserData.

Definition container (sc : Scope) (ctx : BotContext) : option Escape :=
  match sc with ChatData => chat_data ctx | UserData => user_data ctx end.

Definition set_container (sc : Scope) (c : option Escape) (ctx : BotContext) : BotContext :=
  match sc with
  | ChatData => {| chat_data := c; user_data := user_data ctx |}
  | UserData => {| chat_data := chat_data ctx; user_data := c |}
  end.

Definition init_state (now : Z) (c : option Escape) : option Escape :=
  match c with
  | Some e => Some e
  | None => Some (fresh now)
  end.

Definition get_container (now : Z) (ctx : BotContext) : Scope * BotContext :=
  let sc :=
    match chat_data ctx with
    | Some e => if bool_decide (mode e = Some MODE_GROUP) then ChatData else UserData
    | None => UserData
    end in
  (sc, set_container sc (init_state now (container sc ctx)) ctx).

(** The record [st(context)] returns. *)
Definition st (now : Z) (ctx : BotContext) : Escape :=
  let (sc, ctx1) := get_container now ctx in
  default (fresh now) (container sc ctx1).

(** A handler that starts with [state = st(context)]: the record it works
    on is the one in the container, mutated in place. *)
Definition with_st {A} (now : Z) (m : M A) (ctx : BotContext) : BotContext * list Msg :=
  let (sc, ctx1) := get_container now ctx in
  let r := m (default (fresh now) (container sc ctx1)) in
  (set_container sc (Some (final r)) ctx1, sent r).

(** ** Buttons (source lines 548-610) *)

(** The callback data of the buttons the bot builds. *)
Inductive Button :=
| mode_individual
| mode_group
| restart_yes
| restart_no
| enter_1
| opt_enter (opt_id : OptId)
| opt_skip (opt_id : OptId) (next_room : Z).

Definition start_game (m : Mode) (now : Z) (c : option Escape) : option Escape :=
  (fun state => set_room 1 (set_start_ts (Some now) (set_mode (Some m) state)))
    <$> init_state now c.

Definition on_button (env : Env) (data : Button) (private : bool) (ctx : BotContext)
  : BotContext * list Msg :=
  let now := now_ts env in
  match data with
  | mode_individual =>
      (* user_data.clear() *)
      ({| chat_data := chat_data ctx; user_data := start_game MODE_INDIVIDUAL now None |},
       [ModeActivated MODE_INDIVIDUAL])
  | mode_group =>
      if private then (ctx, [GroupOnlyInGroups])
      else
        (* chat_data.clear() *)
        ({| chat_data := start_game MODE_GROUP now None; user_data := user_data ctx |},
         [ModeActivated MODE_GROUP])
  | restart_yes =>
      let (sc, ctx1) := get_container now ctx in
      let m := default None (mode <$> container sc ctx1) in
      let cont := Some empty_dict in          (* cont["escape"] = {} *)
      let cont := init_state now cont in      (* init_state(cont) *)
      let cont := set_mode m <$> cont in      (* cont["escape"]["mode"] = mode *)
      (set_container sc cont ctx1, [Restarted])
  | restart_no => (ctx, [NotRestarted])
  | enter_1 => with_st now (send_room env 1) ctx
  | opt_enter opt_id =>
      with_st now
        (state <- get ;;
         if bool_decide (opt_id ∈ optional_done state) then send OptionalAlreadyDone
         else modify (set_in_optional (Some opt_id)) ;; send (OptionalText opt_id))
        ctx
  | opt_skip _ next_room => with_st now (send_room env next_room) ctx
  end.

(** ** Inbound events *)

Inductive Event :=
| CmdStart
| CmdReiniciar
| CmdInventario
| CmdEstado
| CmdPista
| Pressed (data : Button) (private : bool)
| Text (text : option str).

Definition on_text (env : Env) (text : option str) (ctx : BotContext)
  : BotContext * list Msg :=
  match text with
  | None => (ctx, [])
  | Some raw => with_st (now_ts env) (on_text_st env raw) ctx
  end.

Definition handle (env : Env) (ev : Event) (ctx : BotContext) : BotContext * list Msg :=
  match ev with
  | CmdStart => (ctx, [Intro])
  | CmdReiniciar => (ctx, [ConfirmRestart])
  | CmdInventario => with_st (now_ts env) cmd_inventario ctx
  | CmdEstado => with_st (now_ts env) (cmd_estado env) ctx
  | CmdPista => with_st (now_ts env) cmd_pista ctx
  | Pressed data private => on_button env data private ctx
  | Text text => on_text env text ctx
  end.

(** A run of the bot from the empty persistence file. *)
Definition no_data : BotContext := {| chat_data := None; user_data := None |}.

Fixpoint run (evs : list (Env * Event)) (ctx : BotContext) : BotContext :=
  match evs with
  | [] => ctx
  | (env, ev) :: rest => run rest (fst (handle env ev ctx))
  end.

End Game.

Arguments normalize : simpl never.
Arguments lit : simpl never.
Arguments add_item : simpl never.
Arguments validate_room_10 : simpl never.

(** ** Vocabulary of the properties *)

(** A session in play: a mode was chosen, the game is not completed, no
    optional room is open. *)
Definition playing (s : Escape) : Prop :=
  mode s <> None /\ completed s = false /\ in_optional s = None.

(** The rooms answered by comparison with a list of accepted answers. *)
Definition plain_rooms : list Z := [1; 2; 3; 5; 6; 7; 8; 9].

(** The prompt [send_room] sends for a room: a text, the photo, or the
    text with the warning that the photo is missing. *)
Definition room_prompts (r : Z) : list Msg := [RoomText r; RoomPhoto r; RoomTextNoImage r].

(** The unique tokens of a room-10 submission, as [validate_room_10]
    computes them. *)
Definition unique_tokens (U : Unicode) (raw : str) : list str :=
  unique_loop [] (nonempty_tokens U (split_on 44 raw)).

(** The unique tokens as the specification words them: split on commas,
    normalize each token, de-duplicate preserving order. *)
Definition unique_tokens_spec (U : Unicode) (raw : str) : list str :=
  unique_loop [] (map (normalize U) (split_on 44 raw)).

(** The tokens of a room-10 submission before de-duplication, as the
    specification words them: the pieces between commas, normalized, the
    empty ones dropped, in the order of the text. *)
Definition tokens (U : Unicode) (raw : str) : list str :=
  filter (fun t => t <> []) (map (normalize U) (split_on 44 raw)).

(** De-duplication preserving order, as the specification words it: a
    token is kept where it occurs first and dropped where it occurs
    again. *)
Fixpoint first_occurrences (l : list str) : list str :=
  match l with
  | [] => []
  | x :: rest => x :: filter (fun y => y <> x) (first_occurrences rest)
  end.

(** [u] lists tokens of [l] in the order of their first occurrence: where
    a token occurs first in [l], the tokens that stand before it in [u]
    are the tokens that stand before it in [l]. *)
Definition in_order_of_first_occurrence (u l : list str) : Prop :=
  forall pre x post, l = pre ++ x :: post -> x ∉ pre ->
    exists before after, u = before ++ x :: after /\
                         forall y, y ∈ before <-> y ∈ pre.

(** A word: a non-empty run of characters that are not white space. *)
Definition word (U : Unicode) (w : str) : Prop :=
  w <> [] /\ Forall (fun c => isspace U c = false) w.

(** A lower-case ASCII character: below 128 and not a capital letter. *)
Definition plain (c : N) : Prop := (c < 128)%N /\ ~ (65 <= c <= 90)%N.

(** A record is consistent when a completed game has a mode; a context is
    consistent when the records of its two containers are. *)
Definition consistent (e : Escape) : Prop := completed e = true -> mode e <> None.

Definition consistent_context (ctx : BotContext) : Prop :=
  (forall e, chat_data ctx = Some e -> consistent e) /\
  (forall e, user_data ctx = Some e -> consistent e).

(** Events that start a game over: the confirmed restart and the choice of
    a mode. *)
Definition is_reset (ev : Event) : bool :=
  match ev with
  | Pressed restart_yes _ | Pressed mode_individual _ | Pressed mode_group _ => true
  | _ => false
  end.

(** The room an event sends the session to whatever the current room is:
    the buttons "enter room 1" and "skip", and a text while an optional
    room is open (its return room, when the answer is accepted). *)
Definition jump_target (ev : Event) (s : Escape) : option Z :=
  match ev with
  | Pressed enter_1 _ => Some 1
  | Pressed (opt_skip _ next_room) _ => Some next_room
  | Text (Some _) => (fun o => back_to (OPTIONALS o)) <$> in_optional s
  | _ => None
  end.

(** What [send_room] leaves of a record: the room, and the step of room 4
    back at 0 when the room is 4. *)
Definition enter_room (r : Z) (s : Escape) : Escape :=
  if r =? 4 then set_s4_step 0 (set_room r s) else set_room r s.

(** The reward of an optional room, as [OPTIONALS] has it. *)
Definition grant (o : OptId) (s : Escape) : Escape :=
  match o with
  | OptA => set_free_hints (free_hints s + 1) s
  | OptB => set_penalty_sec (Z.max 0 (penalty_sec s - 60)) s
  | OptC => set_jokers (jokers s + 1) s
  end.

(** The records a text can leave behind. *)
Inductive text_outcome (U : Unicode) (raw : str) (s : Escape) : Escape -> Prop :=
| text_ignored : text_outcome U raw s s
| text_optional (o : OptId) :
    in_optional s = Some o ->
    text_outcome U raw s
      (enter_room (back_to (OPTIONALS o)) (set_in_optional None (grant o (mark_done o s))))
| text_room4_reset :
    in_optional s = None -> room s = 4 ->
    text_outcome U raw s (set_s4_step 0 s)
| text_counted :
    in_optional s = None -> room s <> 0 ->
    text_outcome U raw s (inc_attempts (room s) s)
| text_room4_next :
    in_optional s = None -> room s = 4 -> 0 <= s4_step s <= 1 ->
    text_outcome U raw s (set_s4_step (s4_step s + 1) (inc_attempts 4 s))
| text_room4_done :
    in_optional s = None -> room s = 4 -> s4_step s = 2 ->
    text_outcome U raw s
      (enter_room 5 (add_item (Some (lit "FORTALEZA")) (set_s4_step 3 (inc_attempts 4 s))))
| text_checkpoint (data : RoomData) :
    in_optional s = None -> ROOMS (room s) = Some data ->
    is_Some (OPTIONAL_OFFER_POINTS (room s)) ->
    text_outcome U raw s (add_item (item data) (inc_attempts (room s) s))
| text_solved (data : RoomData) :
    in_optional s = None -> ROOMS (room s) = Some data ->
    room s <> 4 -> room s <> 10 -> OPTIONAL_OFFER_POINTS (room s) = None ->
    text_outcome U raw s
      (enter_room (room s + 1) (add_item (item data) (inc_attempts (room s) s)))
| text_completed (used : bool) :
    in_optional s = None -> room s = 10 -> mode s <> None -> completed s = false ->
    validate_room_10 U raw (inventory s) (jokers s) = (true, used) ->
    text_outcome U raw s
      (set_completed true
         (if used then set_jokers (Z.max 0 (jokers s - 1)) (inc_attempts 10 s)
          else inc_attempts 10 s)).

(** A chat whose shared record has the group mode. *)
Definition group_chat (ctx : BotContext) : Prop :=
  exists e, chat_data ctx = Some e /\ mode e = Some MODE_GROUP.

(** A handler that stopped with an exception, which [error_handler]
    (source lines 751-752) logs. *)
Definition raises {A} (r : Result A) : bool :=
  match r with Ret _ _ _ => false | Exc _ _ _ => true end.

(** Whether the handling of an event ends in [error_handler]. *)
Definition raised_by (U : Unicode) (env : Env) (ev : Event) (ctx : BotContext) : bool :=
  let s := st (now_ts env) ctx in
  match ev with
  | CmdPista => raises (cmd_pista s)
  | Pressed enter_1 _ => raises (send_room env 1 s)
  | Pressed (opt_skip _ next_room) _ => raises (send_room env next_room s)
  | Text (Some raw) => raises (on_text_st U env raw s)
  | _ => false
  end.

(** The rooms the buttons of an event lead to satisfy [allowed]. *)
Definition targets (allowed : Z -> Prop) (ev : Event) : Prop :=
  match ev with
  | Pressed enter_1 _ => allowed 1
  | Pressed (opt_skip _ next_room) _ => allowed next_room
  | _ => True
  end.

(** The buttons the bot builds: the skip button of an offer names the
    optional and the room of [OPTIONAL_OFFER_POINTS]. *)
Definition built_by_bot (ev : Event) : Prop :=
  match ev with
  | Pressed (opt_skip o next_room) _ =>
      exists r, OPTIONAL_OFFER_POINTS r = Some (o, next_room)
  | _ => True
  end.

Definition in_catalog (r : Z) : Prop := 1 <= r <= 10.

(** A property of all the records of a context. *)
Definition all_records (P : Escape -> Prop) (ctx : BotContext) : Prop :=
  (forall e, chat_data ctx = Some e -> P e) /\
  (forall e, user_data ctx = Some e -> P e).

(** A property the handlers keep: it holds of the records the buttons
    build and every handler hands it on. *)
Definition kept (U : Unicode) (allowed : Z -> Prop) (P : Escape -> Prop) : Prop :=
  (forall now, P (fresh now)) /\
  (forall m now, P (set_room 1 (set_start_ts (Some now) (set_mode (Some m) (fresh now))))) /\
  (forall m, P (set_mode m empty_dict)) /\
  (forall raw s s', P s -> text_outcome U raw s s' -> P s') /\
  (forall s, P s -> P (final (cmd_pista s))) /\
  (forall r s, allowed r -> P s -> P (enter_room r s)) /\
  (forall o s, P s -> o ∉ optional_done s -> P (set_in_optional (Some o) s)).

(** The credits and counters are never negative. *)
Definition counts_ok (s : Escape) : Prop :=
  0 <= penalty_sec s /\ 0 <= free_hints s /\ 0 <= jokers s /\
  (forall r v, hints_used s !! r = Some v -> 1 <= v) /\
  (forall r v, attempts s !! r = Some v -> 1 <= v).

(** No optional room is done twice, the open one is not done, and a credit
    is held only for its optional room: at most one free hint, one joker. *)
Definition optionals_ok (s : Escape) : Prop :=
  NoDup (optional_done s) /\
  (forall o, in_optional s = Some o -> o ∉ optional_done s) /\
  free_hints s <= (if bool_decide (OptA ∈ optional_done s) then 1 else 0) /\
  jokers s <= (if bool_decide (OptC ∈ optional_done s) then 1 else 0).

(** The reward items of the catalog. *)
Definition reward_items : list str :=
  [lit "RENUNCIA"; lit "DESAPEGO"; lit "SOLEDAD"; lit "FORTALEZA"; lit "ORACION";
   lit "COMUNIDAD"; lit "SABIDURIA"; lit "COMPASION"; lit "PAZ_INTERIOR"].

(** The item of a room: none, or a reward item that is not the empty
    string. *)
Definition item_ok (it : option str) : Prop :=
  it = None \/ exists i, it = Some i /\ i <> [] /\ i ∈ reward_items.

Definition inventory_ok (s : Escape) : Prop :=
  NoDup (inventory s) /\ (forall it, it ∈ inventory s -> it ∈ reward_items).

(** The room is 0..10, the step of room 4 is 0..3, and below 3 while the
    session is in room 4. *)
Definition rooms_ok (s : Escape) : Prop :=
  0 <= room s <= 10 /\ 0 <= s4_step s <= 3 /\ (room s = 4 -> s4_step s <= 2).

(** Scenarios: events at a given time, in a private chat. *)
Definition at_ (t : Z) : Env :=
  {| now_ts := t; score_ts := t; score_ts' := t; sala3_png := true |}.
Definition says (t : Z) (s : string) : Env * Event := (at_ t, Text (Some (lit s))).
Definition presses (t : Z) (b : Button) : Env * Event := (at_ t, Pressed b true).

(** A player chooses the individual mode and solves rooms 1 and 2. *)
Definition two_rooms : list (Env * Event) :=
  [presses 0 mode_individual; presses 1 enter_1;
   says 5 "Vende lo que tienes y dalo a los pobres"; says 9 "B"].

(** ... then solves room 3, which offers optional room A. *)
Definition three_rooms : list (Env * Event) := two_rooms ++ [says 12 "desierto"].

(** A whole game, skipping the three optional rooms. *)
Definition whole_game : list (Env * Event) :=
  three_rooms ++
  [presses 13 (opt_skip OptA 4);
   says 20 "humildad"; says 21 "pobreza"; says 22 "confianza";
   says 30 "aliento"; says 31 "falso"; presses 32 (opt_skip OptB 7);
   says 40 "b"; says 41 "caridad"; presses 42 (opt_skip OptC 9);
   says 50 "fe"; says 60 "renuncia, oracion, sabiduria"].

(** A game up to room 10 in which optional room C was solved: one joker. *)
Definition to_room_10_with_joker : list (Env * Event) :=
  three_rooms ++
  [presses 13 (opt_skip OptA 4);
   says 20 "humildad"; says 21 "pobreza"; says 22 "confianza";
   says 30 "aliento"; says 31 "falso"; presses 32 (opt_skip OptB 7);
   says 40 "b"; says 41 "caridad"; presses 42 (opt_enter OptC);
   says 45 "compasion"; says 50 "fe"].

(** ** Proof tools *)

Ltac run_handler :=
  cbv beta iota delta
    [bind get modify send ret raise subscript index final sent
     offer_optional apply_reward].

Ltac open_state s :=
  let m := fresh "s_mode" in
  let r := fresh "s_room" in
  let inv := fresh "s_inv" in
  let ts := fresh "s_ts" in
  let pen := fresh "s_pen" in
  let hu := fresh "s_hints" in
  let att := fresh "s_att" in
  let comp := fresh "s_done" in
  let od := fresh "s_opts" in
  let io := fresh "s_opt" in
  let fh := fresh "s_free" in
  let jk := fresh "s_jok" in
  let st4 := fresh "s_step" in
  destruct s as [m r inv ts pen hu att comp od io fh jk st4]; cbn in *; subst;
  try (destruct m; [|congruence]).

(** Sums of two literal room numbers. *)
Ltac calc_rooms :=
  repeat match goal with
         | |- context [Z.add (Zpos ?a) (Zpos ?b)] =>
             let v := eval vm_compute in (Z.add (Zpos a) (Zpos b)) in
             change (Z.add (Zpos a) (Zpos b)) with v
         end.

(** Membership in a list written out. *)
Ltac in_list := first [by left | right; in_list].

Ltac decide_true := rewrite bool_decide_eq_true_2 by (done || lia).
Ltac decide_false := rewrite bool_decide_eq_false_2 by (done || lia).

(** What [inc] leaves behind: the counter of the room is one more (one, if
    the room had none), the other counters and fields are as before. *)
Lemma inc_attempts_spec (r : Z) (s : Escape) :
  attempts (inc_attempts r s) !! r = Some (default 0 (attempts s !! r) + 1) /\
  (forall r', r' <> r -> attempts (inc_attempts r s) !! r' = attempts s !! r') /\
  inc_attempts r s = set_attempts (attempts (inc_attempts r s)) s.
Proof.
  unfold inc_attempts; cbn. split_and!; [apply lookup_insert_eq | | done].
  intros r' Hr. by apply lookup_insert_ne.
Qed.

(** [add_item] appends an item that is not held and leaves the inventory
    alone otherwise: the inventory grows by at most one. *)
Lemma add_item_spec (it : str) (s : Escape) :
  it <> [] ->
  inventory (add_item (Some it) s) =
    (if str_in it (inventory s) then inventory s else inventory s ++ [it]) /\
  (it ∈ inventory s -> add_item (Some it) s = s) /\
  (it ∉ inventory s -> add_item (Some it) s = set_inventory (inventory s ++ [it]) s).
Proof.
  intros Hne. unfold add_item, str_in. destruct it as [|c it]; [done|].
  split_and!.
  - by case_bool_decide.
  - intros Hin. by decide_true.
  - intros Hin. by decide_false.
Qed.

Section Room4.

Context (U : Unicode) (env : Env).

Lemma expected_in_range (step : Z) :
  0 <= step <= 2 -> exists e, list_index expected step = Some e.
Proof.
  intros H. assert (step = 0 \/ step = 1 \/ step = 2) as [->|[->| ->]] by lia;
    eexists; reflexivity.
Qed.

(** C4, as amended.  A text in room 4 with the step in 0..2 counts one
    attempt in room 4; a wrong answer changes nothing else, a right answer
    at step 0 or 1 moves to the next step, a right answer at step 2 sets
    the step to 3, adds FORTALEZA, sends the success text and goes to
    room 5.  With the step outside 0..2 the step is reset to 0, the first
    prompt is shown again, and no attempt is counted. *)
Theorem room4_text (raw : str) (s : Escape) :
  playing s -> room s = 4 ->
  let r := on_text_st U env raw s in
  let txt := normalize U raw in
  let step := s4_step s in
  let counted := inc_attempts 4 s in
  ((step < 0 \/ 2 < step) ->
     final r = set_s4_step 0 s /\ sent r = [Room4Restart]) /\
  (forall e, 0 <= step <= 2 -> list_index expected step = Some e ->
     (txt <> e -> final r = counted /\ sent r = [Room4Retry]) /\
     (txt = e -> step = 0 ->
        final r = set_s4_step 1 counted /\ sent r = [Room4Second]) /\
     (txt = e -> step = 1 ->
        final r = set_s4_step 2 counted /\ sent r = [Room4Third]) /\
     (txt = e -> step = 2 ->
        final r = set_room 5 (add_item (Some (lit "FORTALEZA")) (set_s4_step 3 counted)) /\
        sent r = [Room4Done; RoomSuccess 4; RoomText 5])).
Proof.
  intros (Hm & Hc & Ho) Hr. open_state s.
  unfold on_text_st, handle_room4_sequence. run_handler. cbn.
  split.
  - intros Hs.
    replace ((s_step <? 0) || (2 <? s_step)) with true
      by (symmetry; apply orb_true_iff; lia).
    cbn. done.
  - intros e Hs He.
    replace ((s_step <? 0) || (2 <? s_step)) with false
      by (symmetry; apply orb_false_iff; lia).
    rewrite He. cbn. unfold str_eqb.
    split_and!.
    + intros Hne. decide_false. cbn. done.
    + intros Heq ->. decide_true. cbn. done.
    + intros Heq ->. decide_true. cbn. done.
    + intros Heq ->. decide_true. cbn. done.
Qed.

End Room4.

Section Optionals.

Context (U : Unicode) (env : Env).

(** C6.  A text while an optional room is open is compared with the
    accepted answers of that optional only.  A wrong answer changes
    nothing and gets the retry message.  A right answer puts the optional
    in [optional_done], applies its reward once (A: one more free hint, B:
    the penalty less 60 and not below 0, C: one more joker), closes the
    optional, sends the success text and enters the return room of the
    optional. *)
Theorem optional_room_text (raw : str) (s : Escape) (o : OptId) :
  mode s <> None -> completed s = false -> in_optional s = Some o ->
  let r := on_text_st U env raw s in
  let accepted := normalize U raw ∈ map (normalize U) (opt_answers (OPTIONALS o)) in
  (~ accepted -> final r = s /\ sent r = [OptionalRetry]) /\
  (accepted ->
     o ∈ optional_done (final r) /\
     optional_done (final r) =
       (if bool_decide (o ∈ optional_done s) then optional_done s
        else optional_done s ++ [o]) /\
     free_hints (final r) = free_hints s + (match o with OptA => 1 | _ => 0 end) /\
     jokers (final r) = jokers s + (match o with OptC => 1 | _ => 0 end) /\
     penalty_sec (final r) =
       (match o with OptB => Z.max 0 (penalty_sec s - 60) | _ => penalty_sec s end) /\
     in_optional (final r) = None /\
     room (final r) = back_to (OPTIONALS o) /\
     s4_step (final r) = (match o with OptA => 0 | _ => s4_step s end) /\
     sent r = [OptionalSuccess o; RoomText (back_to (OPTIONALS o))] /\
     mode (final r) = mode s /\ inventory (final r) = inventory s /\
     start_ts (final r) = start_ts s /\ hints_used (final r) = hints_used s /\
     attempts (final r) = attempts s /\ completed (final r) = false).
Proof.
  intros Hm Hc Ho. open_state s.
  unfold on_text_st, str_in. run_handler. cbn. split.
  - intros Hno. decide_false. done.
  - intros Hyes. decide_true. unfold send_room, mark_done. run_handler.
    destruct o; cbn; case_bool_decide; cbn;
      (split; [first [done | apply elem_of_app; right; in_list]|]);
      rewrite ?Z.add_0_r; done.
Qed.

End Optionals.

Section PlainRooms.

Context (U : Unicode) (env : Env).

(** C5, as amended.  In rooms 1, 2, 3, 5, 6, 7, 8 and 9 a text counts one
    attempt in the room.  If its normal form is one of the accepted
    answers, the reward of the room is added to the inventory unless it is
    already there (the inventory grows by one item or stays as it is), the
    success text is sent, and the session goes to the next room (rooms 1,
    2, 5, 7, 9) or stays in the room with the offer of the optional room
    (rooms 3, 6, 8).  Otherwise the retry message is sent and nothing else
    changes. *)
Theorem plain_room_text (raw : str) (s : Escape) (n : Z) :
  playing s -> room s = n -> n ∈ plain_rooms ->
  exists data it,
    ROOMS n = Some data /\ item data = Some it /\ it <> [] /\
    let r := on_text_st U env raw s in
    let accepted := normalize U raw ∈ map (normalize U) (default [] (answers data)) in
    let counted := inc_attempts n s in
    (accepted ->
       inventory (final r) =
         (if str_in it (inventory s) then inventory s else inventory s ++ [it]) /\
       match OPTIONAL_OFFER_POINTS n with
       | Some (o, next_room) =>
           final r = add_item (Some it) counted /\
           room (final r) = n /\
           sent r = [RoomSuccess n; OptionalOffer o next_room]
       | None =>
           final r = set_room (n + 1) (add_item (Some it) counted) /\
           room (final r) = n + 1 /\
           exists prompt, prompt ∈ room_prompts (n + 1) /\
                          sent r = [RoomSuccess n; prompt]
       end) /\
    (~ accepted -> final r = counted /\ sent r = [Retry]).
Proof.
  intros (Hm & Hc & Ho) Hr Hn. open_state s.
  unfold plain_rooms in Hn.
  repeat (apply elem_of_cons in Hn as [->|Hn]); [..|by apply elem_of_nil in Hn].
  all: eexists _, _; split; [reflexivity|]; split; [reflexivity|]; split; [done|].
  all: unfold on_text_st, handle_room4_sequence, str_in; run_handler; cbn.
  all: split; [intros Hyes; decide_true | intros Hno; decide_false; done].
  all: unfold send_room, add_item, str_in; run_handler; cbn.
  all: case_bool_decide; cbn.
  all: try (split_and!; try done; eexists; split; [|reflexivity];
            unfold room_prompts; in_list).
  all: try (destruct (sala3_png env); cbn; split_and!; try done;
            eexists; (split; [|reflexivity]); unfold room_prompts; in_list).
Qed.

End PlainRooms.

Section Room10.

Context (U : Unicode) (env : Env).

Lemma issubset_spec (l m : list str) :
  issubset l (list_to_set m) = true <-> (forall x, x ∈ l -> x ∈ m).
Proof.
  unfold issubset. rewrite bool_decide_eq_true. split.
  - intros H x Hx. apply (elem_of_list_to_set (C := gset str)), H.
    by apply elem_of_list_to_set.
  - intros H x Hx. apply elem_of_list_to_set in Hx.
    by apply elem_of_list_to_set, H.
Qed.

(** The loop keeps what it has, appends the first occurrence of every new
    item in the order of the input, and never a duplicate. *)
Lemma unique_loop_spec (items acc : list str) :
  NoDup acc ->
  exists rest,
    unique_loop acc items = acc ++ rest /\
    sublist rest items /\
    NoDup (acc ++ rest) /\
    (forall x, x ∈ acc ++ rest <-> x ∈ acc \/ x ∈ items).
Proof.
  revert acc. induction items as [|it items IH]; intros acc Hnd; cbn.
  - exists []. rewrite app_nil_r. split_and!; try done.
    intros x. rewrite elem_of_nil. tauto.
  - unfold str_in. case_bool_decide as Hin.
    + destruct (IH acc Hnd) as (rest & -> & Hsub & Hnd' & Hmem).
      exists rest. split_and!; try done.
      * by apply sublist_cons.
      * intros x. rewrite Hmem, elem_of_cons. split; [tauto|].
        intros [?|[->|?]]; tauto.
    + assert (NoDup (acc ++ [it])) as Hnd1.
      { apply NoDup_app. split_and!; [done| |apply NoDup_singleton].
        intros x Hx ->%list_elem_of_singleton. done. }
      destruct (IH _ Hnd1) as (rest & -> & Hsub & Hnd' & Hmem).
      exists (it :: rest). rewrite <- !app_assoc in *. cbn in *.
      split_and!; try done.
      * by apply sublist_skip.
      * intros x. rewrite Hmem, elem_of_app, list_elem_of_singleton, elem_of_cons.
        tauto.
Qed.

Lemma unique_tokens_NoDup (raw : str) : NoDup (unique_tokens U raw).
Proof.
  unfold unique_tokens.
  destruct (unique_loop_spec (nonempty_tokens U (split_on 44 raw)) [])
    as (rest & -> & _ & Hnd & _); [constructor|done].
Qed.

(** The tokens kept are the non-empty normal forms of the pieces between
    commas, in their order of first occurrence. *)
Lemma unique_tokens_sublist (raw : str) :
  sublist (unique_tokens U raw) (nonempty_tokens U (split_on 44 raw)) /\
  (forall x, x ∈ unique_tokens U raw <-> x ∈ nonempty_tokens U (split_on 44 raw)).
Proof.
  unfold unique_tokens.
  destruct (unique_loop_spec (nonempty_tokens U (split_on 44 raw)) [])
    as (rest & -> & Hsub & _ & Hmem); [constructor|].
  split; [done|]. intros x. rewrite Hmem, elem_of_nil. tauto.
Qed.

Lemma nonempty_tokens_spec (parts : list str) (x : str) :
  x ∈ nonempty_tokens U parts <-> x <> [] /\ x ∈ map (normalize U) parts.
Proof.
  induction parts as [|p parts IH]; cbn.
  - rewrite elem_of_nil. tauto.
  - destruct (normalize U p) as [|c t] eqn:E.
    + rewrite IH, elem_of_cons. split; [tauto|]. intros [Hne [->|?]]; tauto.
    + rewrite !elem_of_cons, IH. split; [|tauto].
      intros [->|?]; [split; [done|by left]|tauto].
Qed.

(** The comprehension of the source keeps the non-empty normal forms. *)
Lemma nonempty_tokens_filter (parts : list str) :
  nonempty_tokens U parts = filter (fun t => t <> []) (map (normalize U) parts).
Proof.
  induction parts as [|p parts IH]; [done|]. cbn [nonempty_tokens map].
  destruct (normalize U p) as [|c t] eqn:E.
  - rewrite filter_cons_False by (intros H; by apply H). done.
  - rewrite filter_cons_True by done. by rewrite IH.
Qed.

Lemma filter_not_in_nil (l : list str) : filter (fun y => y ∉ []) l = l.
Proof.
  induction l as [|a l IH]; [done|].
  rewrite filter_cons_True by apply not_elem_of_nil. by rewrite IH.
Qed.

(** The loop of the source, started with [acc], appends the first
    occurrences of the tokens that [acc] does not hold. *)
Lemma unique_loop_first_occurrences (l acc : list str) :
  unique_loop acc l = acc ++ filter (fun y => y ∉ acc) (first_occurrences l).
Proof.
  revert acc. induction l as [|x l IH]; intros acc; cbn [unique_loop first_occurrences].
  - by rewrite filter_nil, app_nil_r.
  - unfold str_in. case_bool_decide as Hx.
    + rewrite IH, filter_cons_False by (intros H; by apply H).
      f_equal. rewrite list_filter_filter. apply list_filter_iff.
      intros y. split; [|tauto]. intros Hy. split; [done|]. by intros ->.
    + rewrite IH, filter_cons_True by done. rewrite <- app_assoc. cbn.
      do 2 f_equal. rewrite list_filter_filter. apply list_filter_iff.
      intros y. rewrite elem_of_app, list_elem_of_singleton. tauto.
Qed.

(** The unique tokens of the validator are the tokens of the
    specification, each kept where it occurs first. *)
Lemma unique_tokens_first (raw : str) :
  unique_tokens U raw = first_occurrences (tokens U raw).
Proof.
  unfold unique_tokens, tokens.
  rewrite unique_loop_first_occurrences, nonempty_tokens_filter. cbn.
  apply filter_not_in_nil.
Qed.

Lemma first_occurrences_elem (l : list str) (x : str) :
  x ∈ first_occurrences l <-> x ∈ l.
Proof.
  induction l as [|a l IH]; cbn; [done|].
  rewrite !elem_of_cons, list_elem_of_filter, IH.
  destruct (decide (x = a)); tauto.
Qed.

Lemma first_occurrences_NoDup (l : list str) : NoDup (first_occurrences l).
Proof.
  induction l as [|a l IH]; cbn; [constructor|].
  constructor; [|by apply NoDup_filter].
  rewrite list_elem_of_filter. tauto.
Qed.

Lemma first_occurrences_in_order (l : list str) :
  in_order_of_first_occurrence (first_occurrences l) l.
Proof.
  induction l as [|a l IH]; intros pre x post E Hx.
  - by destruct pre.
  - destruct pre as [|b pre]; cbn in E; injection E as <- ->.
    + exists [], (filter (fun y => y <> a) (first_occurrences post)). done.
    + apply not_elem_of_cons in Hx as [Hxa Hx].
      destruct (IH pre x post eq_refl Hx) as (before & after & Hfo & Hmem).
      exists (a :: filter (fun y => y <> a) before), (filter (fun y => y <> a) after).
      split.
      * cbn. rewrite Hfo, filter_app, filter_cons_True by done. done.
      * intros y. rewrite !elem_of_cons, list_elem_of_filter, Hmem.
        destruct (decide (y = a)); tauto.
Qed.

Lemma first_occurrences_snoc (l : list str) (a : str) :
  first_occurrences (l ++ [a])
  = if bool_decide (a ∈ l) then first_occurrences l else first_occurrences l ++ [a].
Proof.
  induction l as [|b l IH]; cbn.
  - rewrite bool_decide_eq_false_2 by apply not_elem_of_nil. done.
  - rewrite IH. destruct (decide (a = b)) as [->|Hab].
    + rewrite (bool_decide_eq_true_2 (b ∈ b :: l)) by left.
      case_bool_decide; [done|].
      rewrite filter_app, filter_cons_False by (intros Hb; by apply Hb).
      by rewrite filter_nil, app_nil_r.
    + case_bool_decide as Hal.
      * rewrite (bool_decide_eq_true_2 (a ∈ b :: l)) by (by right). done.
      * rewrite (bool_decide_eq_false_2 (a ∈ b :: l))
          by (by intros [?|?]%elem_of_cons).
        rewrite filter_app, filter_cons_True by done. by rewrite filter_nil.
Qed.

(** The three properties determine the list: a duplicate-free list of the
    tokens of [l] in the order of their first occurrence is
    [first_occurrences l]. *)
Lemma first_occurrences_unique (l v : list str) :
  NoDup v -> (forall x, x ∈ v <-> x ∈ l) -> in_order_of_first_occurrence v l ->
  v = first_occurrences l.
Proof.
  revert v. induction l as [|a l IH] using rev_ind; intros v Hnd Hmem Hord.
  - destruct v as [|x v]; [done|]. exfalso.
    apply (not_elem_of_nil x), Hmem. left.
  - rewrite first_occurrences_snoc. case_bool_decide as Hal.
    + apply IH; [done| |].
      * intros x. rewrite Hmem, elem_of_app, list_elem_of_singleton.
        split; [|tauto]. intros [?| ->]; done.
      * intros pre x post -> Hx.
        apply (Hord pre x (post ++ [a])); [|done]. by rewrite <- app_assoc.
    + destruct (Hord l a [] eq_refl Hal) as (before & after & -> & Hbefore).
      assert (after = []) as ->.
      { destruct after as [|z after]; [done|]. exfalso.
        apply NoDup_app in Hnd as (_ & Hdis & Hnd2).
        apply NoDup_cons in Hnd2 as [Ha _].
        assert (z ∈ l ++ [a]) as Hz.
        { apply Hmem. apply elem_of_app. right. right. left. }
        apply elem_of_app in Hz as [Hz|Hz].
        - apply (Hdis z); [by apply Hbefore|]. right. left.
        - apply list_elem_of_singleton in Hz as ->. apply Ha. left. }
      f_equal. apply NoDup_app in Hnd as (Hnd1 & _ & _).
      apply IH; [done|done|].
      intros pre x post -> Hx.
      destruct (Hord pre x (post ++ [a])) as (b & c & E & Hb);
        [by rewrite <- app_assoc|done|].
      assert (x <> a) as Hxa.
      { intros ->. apply Hal. apply elem_of_app. right. left. }
      destruct c as [|z c _] using rev_ind.
      * exfalso. change (b ++ [x]) with (b ++ [x]) in E.
        apply app_inj_tail in E as [_ E]. by apply Hxa.
      * exists b, c. split; [|done].
        change (b ++ x :: c ++ [z]) with (b ++ (x :: c) ++ [z]) in E.
        rewrite app_assoc in E. apply app_inj_tail in E as [E _]. done.
Qed.

(** The three cases of the validator. *)
Lemma validate_room_10_cases (raw : str) (inv : list str) (jok : Z) :
  let u := unique_tokens U raw in
  let inv_norm : gset str := list_to_set (map (normalize U) inv) in
  let v := validate_room_10 U raw inv jok in
  ((3 <= length u)%nat ->
     forall j, validate_room_10 U raw inv j = v) /\
  ((3 <= length u)%nat ->
     fst v = issubset (take 3 u) inv_norm /\ snd v = false) /\
  (length u = 2%nat -> 0 < jok -> fst v = issubset u inv_norm /\ snd v = true) /\
  ((length u < 2)%nat \/ (length u = 2%nat /\ jok <= 0) -> fst v = false).
Proof.
  intros u inv_norm v. unfold v, validate_room_10.
  fold (unique_tokens U raw). fold u. fold inv_norm.
  destruct (Nat.leb_spec 3 (length u)) as [Hlen|Hlen].
  - split_and!; try done; intros; lia.
  - split_and!; try (intros; lia).
    + intros Hlen2 Hj. rewrite Hlen2. cbn.
      destruct (Z.ltb_spec 0 jok); [done|lia].
    + intros [Hlt|[Hlen2 Hj]].
      * destruct (Nat.eqb_spec (length u) 2); [lia|done].
      * rewrite Hlen2. cbn. destruct (Z.ltb_spec 0 jok); [lia|done].
Qed.

(** The outcome of a text in room 10, read off the verdict of the
    validator. *)
Lemma room10_outcome (raw : str) (s : Escape) :
  playing s -> room s = 10 ->
  let r := on_text_st U env raw s in
  let v := validate_room_10 U raw (inventory s) (jokers s) in
  let counted := inc_attempts 10 s in
  (fst v = false -> final r = counted /\ sent r = [Retry]) /\
  (fst v = true ->
     final r = set_completed true
                 (if snd v then set_jokers (Z.max 0 (jokers s - 1)) counted else counted) /\
     sent r = [RoomSuccess 10;
               FinalReport (compute_score (score_ts env) (score_ts' env) (final r))]).
Proof.
  intros (Hm & Hc & Ho) Hr. open_state s.
  unfold on_text_st, handle_room4_sequence. run_handler. cbn.
  destruct (validate_room_10 U raw s_inv s_jok) as [[|] [|]]; cbn; done.
Qed.

(** C1, as amended.  The tokens of a room-10 submission are the pieces of
    the raw text between commas, normalized, the empty ones dropped; the
    unique tokens are these tokens, each kept where it occurs first and
    dropped where it occurs again, so they have no duplicates and stand in
    the order of their first occurrence.  With three or more unique tokens the
    submission succeeds exactly when the first three are in the normalized
    inventory; the verdict does not depend on the jokers and they are not
    changed.  With two unique tokens and a joker it succeeds exactly when
    both are in the inventory, and success costs one joker.  Every other
    submission fails; a failure counts the attempt and changes nothing
    else. *)
Theorem room10_text (raw : str) (s : Escape) :
  playing s -> room s = 10 ->
  let r := on_text_st U env raw s in
  let u := unique_tokens U raw in
  let held (l : list str) := forall x, x ∈ l -> x ∈ map (normalize U) (inventory s) in
  let success := completed (final r) = true in
  NoDup u /\
  u = first_occurrences (tokens U raw) /\
  in_order_of_first_occurrence u (tokens U raw) /\
  ((3 <= length u)%nat ->
     (success <-> held (take 3 u)) /\
     (success -> jokers (final r) = jokers s) /\
     (forall j, validate_room_10 U raw (inventory s) j
                = validate_room_10 U raw (inventory s) (jokers s))) /\
  (length u = 2%nat -> 0 < jokers s ->
     (success <-> held u) /\
     (success -> jokers (final r) = jokers s - 1)) /\
  ((length u < 2)%nat \/ (length u = 2%nat /\ jokers s <= 0) -> ~ success) /\
  (~ success -> final r = inc_attempts 10 s /\ sent r = [Retry]) /\
  (success ->
     sent r = [RoomSuccess 10;
               FinalReport (compute_score (score_ts env) (score_ts' env) (final r))]).
Proof.
  intros Hp Hr r u held success.
  destruct (room10_outcome raw s Hp Hr) as [Hfail Hok].
  fold r in Hfail, Hok. destruct Hp as (Hm & Hc & Ho).
  assert (Hs : success <-> fst (validate_room_10 U raw (inventory s) (jokers s)) = true).
  { unfold success.
    destruct (fst (validate_room_10 U raw (inventory s) (jokers s))) eqn:E.
    - destruct (Hok eq_refl) as [-> _]. done.
    - destruct (Hfail eq_refl) as [-> _]. cbn. rewrite Hc. done. }
  split; [apply unique_tokens_NoDup|].
  split; [apply unique_tokens_first|].
  split; [unfold u; rewrite unique_tokens_first; apply first_occurrences_in_order|].
  destruct (validate_room_10_cases raw (inventory s) (jokers s))
    as (Hindep & Hv3 & Hv2 & Hv0).
  fold u in Hindep, Hv3, Hv2, Hv0.
  assert (Hno_fail : ~ success -> final r = inc_attempts 10 s /\ sent r = [Retry]).
  { intros Hno. apply Hfail.
    destruct (fst _); [|done]. exfalso. apply Hno, Hs. done. }
  assert (Hyes_sent : success ->
            sent r = [RoomSuccess 10;
                      FinalReport (compute_score (score_ts env) (score_ts' env)
                                     (final r))]).
  { intros Hyes. apply Hs in Hyes. by destruct (Hok Hyes). }
  split_and!; try done.
  - intros Hlen. destruct (Hv3 Hlen) as [Hfst Hsnd]. split_and!.
    + rewrite Hs, Hfst. apply issubset_spec.
    + intros Hyes. apply Hs in Hyes. destruct (Hok Hyes) as [-> _].
      rewrite Hsnd. done.
    + by apply Hindep.
  - intros Hlen2 Hj. destruct (Hv2 Hlen2 Hj) as [Hfst Hsnd]. split.
    + rewrite Hs, Hfst. apply issubset_spec.
    + intros Hyes. apply Hs in Hyes. destruct (Hok Hyes) as [-> _].
      rewrite Hsnd. cbn. lia.
  - intros Hcase. rewrite Hs, (Hv0 Hcase). done.
Qed.

End Room10.

Section Scoring.



(** The time of a record without a start time does not grow with the
    clock: it is the penalty when the two readings agree, and never more
    while the clock does not run backwards. *)
Lemma time_without_start (s : Escape) (now now' : Z) :
  start_ts s = None -> now <= now' ->
  stats_time_sec (compute_score now now' s) <= penalty_sec s /\
  stats_time_sec (compute_score now now s) = penalty_sec s.
Proof. intros H Hnow. unfold compute_score, elapsed. rewrite H. cbn. lia. Qed.

End Scoring.

Section Hints.

Lemma ROOMS_Some (r : Z) (data : RoomData) :
  ROOMS r = Some data -> 1 <= r <= 10 /\ length (hints data) = 2%nat.
Proof.
  unfold ROOMS. destruct r as [|p|p]; try done.
  do 4 (try destruct p as [p|p|]; try done); intros [= <-]; split; (lia || done).
Qed.

Lemma ROOMS_None (r : Z) : ROOMS r = None <-> r < 1 \/ 10 < r.
Proof.
  split.
  - unfold ROOMS. destruct r as [|p|p]; try lia.
    do 4 (try destruct p as [p|p|]; try done; try lia).
  - intros H. destruct (ROOMS r) as [data|] eqn:E; [|done].
    apply ROOMS_Some in E. lia.
Qed.

(** What a hint request does in a main room, where [used] is the counter
    of the room before the request: the counter goes up by one in every
    case, also when no hint is left; a free hint costs one credit and no
    time; otherwise the hint costs 30 seconds times the new counter. *)
Lemma cmd_pista_spec (s : Escape) (data : RoomData) :
  playing s -> ROOMS (room s) = Some data ->
  let r := cmd_pista s in
  let used := default 0 (hints_used s !! room s) in
  let counted := set_hints_used (<[room s := used + 1]> (hints_used s)) s in
  0 <= used ->
  (2 <= used -> final r = counted /\ sent r = [NoMoreHints]) /\
  (forall h, hints data !! Z.to_nat used = Some h ->
     (0 < free_hints s ->
        final r = set_free_hints (free_hints s - 1) counted /\ sent r = [FreeHint h]) /\
     (free_hints s <= 0 ->
        final r = set_penalty_sec (penalty_sec s + 30 * (used + 1)) counted /\
        sent r = [PaidHint h (30 * (used + 1))])).
Proof.
  intros (Hm & Hc & Ho) Hdata r used counted Hused.
  pose proof (ROOMS_Some _ _ Hdata) as [Hr Hlen].
  unfold r, counted, used, cmd_pista in *. clear r counted used.
  open_state s. run_handler. rewrite Hdata.
  assert ((s_room =? 0) = false) as -> by lia.
  destruct (hints data) as [|h0 [|h1 [|]]] eqn:Eh; try done. cbn.
  change (Z.of_nat 2) with 2.
  set (used := default 0 (s_hints !! s_room)) in *.
  split.
  - intros H2. assert ((2 <=? used + 1 - 1) = true) as -> by lia. done.
  - intros h Hh.
    assert (used = 0 \/ used = 1) as Hcases.
    { apply lookup_lt_Some in Hh. cbn in Hh. lia. }
    assert ((2 <=? used + 1 - 1) = false) as -> by lia.
    assert (list_index [h0; h1] (used + 1 - 1) = Some h) as Hidx.
    { unfold list_index. replace (used + 1 - 1) with used by lia.
      destruct Hcases as [E|E]; rewrite E in *; done. }
    split.
    + intros Hfree. assert ((0 <? s_free) = true) as -> by lia.
      cbn. rewrite Hidx. done.
    + intros Hfree. assert ((0 <? s_free) = false) as -> by lia.
      cbn. rewrite Hidx. done.
Qed.

(** C3, the code at the failing input.  A player in room 1 has asked for
    its two hints.  A third request is answered "no more hints", and yet
    the counter of room 1 goes from 2 to 3: the record has changed, and
    the provisional score is 40 points lower. *)
Theorem exhausted_hint_request_is_counted :
  let ctx := run Excerpt.ucd
               [presses 0 mode_individual; presses 1 enter_1;
                (at_ 2, CmdPista); (at_ 3, CmdPista)] no_data in
  let before := st 4 ctx in
  let after := handle Excerpt.ucd (at_ 4) CmdPista ctx in
  hints_used before !! 1 = Some 2 /\
  snd after = [NoMoreHints] /\
  hints_used (st 4 (fst after)) !! 1 = Some 3 /\
  st 4 (fst after) <> before /\
  stats_score (compute_score 4 4 (st 4 (fst after)))
    = stats_score (compute_score 4 4 before) - 40.
Proof.
  vm_compute. split_and!; try reflexivity. intros H. discriminate H.
Qed.

End Hints.

Section Restart.

(** What a confirmed restart leaves in the container: the dictionary with
    the key ["mode"] alone.  [init_state] finds the key ["escape"] present
    and writes nothing. *)
Lemma restart_yes_record (env : Env) (private : bool) (ctx : BotContext) :
  let after := on_button env restart_yes private ctx in
  let sc := fst (get_container (now_ts env) ctx) in
  container sc (fst after)
    = Some (set_mode (mode (st (now_ts env) ctx)) empty_dict) /\
  start_ts (st (now_ts env) (fst after)) = None /\
  snd after = [Restarted].
Proof.
  unfold on_button, st, get_container.
  destruct ctx as [[c|] [u|]]; cbn; repeat case_bool_decide; cbn;
    rewrite ?bool_decide_eq_true_2 by done; cbn; try done;
    repeat case_bool_decide; cbn; done.
Qed.

(** C9, the code at the failing input.  A player who has solved two rooms
    confirms a restart at time 100.  The record is not the fresh record
    with the mode kept: the start time is missing.  When the game is
    resumed with the button "enter room 1" of the earlier message, the
    time of the game reads 0 however late the clock. *)
Theorem restart_leaves_no_start_time :
  let ctx := run Excerpt.ucd two_rooms no_data in
  let after := on_button (at_ 100) restart_yes true ctx in
  let resumed := run Excerpt.ucd
                   [presses 101 enter_1;
                    says 300 "vende lo que tienes y dalo a los pobres"]
                   (fst after) in
  mode (st 100 ctx) = Some MODE_INDIVIDUAL /\
  user_data (fst after) = Some (set_mode (Some MODE_INDIVIDUAL) empty_dict) /\
  user_data (fst after) <> Some (set_mode (Some MODE_INDIVIDUAL) (fresh 100)) /\
  start_ts (st 100 (fst after)) = None /\
  room (st 500 resumed) = 2 /\
  stats_time_sec (compute_score 500 500 (st 500 resumed)) = 0.
Proof.
  vm_compute. split_and!; try reflexivity. intros H. discriminate H.
Qed.

End Restart.

Section Frame.

Context (U : Unicode) (env : Env).

Lemma add_item_mode (it : option str) (s : Escape) : mode (add_item it s) = mode s.
Proof. unfold add_item. destruct it as [[|c i]|]; try done. by destruct (str_in _ _). Qed.

Lemma add_item_room (it : option str) (s : Escape) : room (add_item it s) = room s.
Proof. unfold add_item. destruct it as [[|c i]|]; try done. by destruct (str_in _ _). Qed.

Lemma add_item_completed (it : option str) (s : Escape) :
  completed (add_item it s) = completed s.
Proof. unfold add_item. destruct it as [[|c i]|]; try done. by destruct (str_in _ _). Qed.

Lemma room_in_catalog (r : Z) (data : RoomData) :
  ROOMS r = Some data ->
  r = 1 \/ r = 2 \/ r = 3 \/ r = 4 \/ r = 5 \/ r = 6 \/ r = 7 \/ r = 8 \/ r = 9 \/ r = 10.
Proof. intros H%ROOMS_Some. lia. Qed.

(** [send_room] sets the room, also when the room is unknown and the
    lookup of its data fails. *)
Lemma send_room_frame (r : Z) (s : Escape) :
  room (final (send_room env r s)) = r /\
  mode (final (send_room env r s)) = mode s /\
  completed (final (send_room env r s)) = completed s.
Proof.
  unfold send_room. run_handler. cbn.
  destruct (r =? 4); cbn; destruct (ROOMS r) as [data|]; cbn; try done;
    destruct (image data); try destruct (sala3_png env); done.
Qed.

(** What a text leaves of the mode and of the room. *)
Lemma on_text_st_frame (raw : str) (s : Escape) :
  let r := on_text_st U env raw s in
  mode (final r) = mode s /\
  (in_optional s = None -> room s <= room (final r)) /\
  (forall o, in_optional s = Some o ->
     room (final r) = room s \/ room (final r) = back_to (OPTIONALS o)).
Proof.
  destruct s as [m r inv ts pen hu att comp od io fh jk step]. cbn.
  unfold on_text_st. run_handler. cbn.
  destruct m as [m|]; [|cbn; split_and!; (done || lia || auto)].
  destruct comp; [cbn; split_and!; (done || lia || auto)|].
  destruct io as [o|].
  - destruct (str_in _ _); cbn; [|split_and!; (done || auto)].
    unfold send_room, mark_done. run_handler.
    destruct o; cbn; case_bool_decide; cbn; split_and!; try done;
      intros ? [= <-]; by right.
  - destruct (Z.eqb_spec r 0) as [->|Hr0]; [cbn; split_and!; (done || lia)|].
    unfold handle_room4_sequence. run_handler. cbn.
    destruct (Z.eqb_spec r 4) as [->|Hr4]; cbn.
    + destruct ((step <? 0) || (2 <? step)); cbn; [split_and!; (done || lia)|].
      destruct (list_index expected step) as [e|]; cbn; [|split_and!; (done || lia)].
      destruct (str_eqb _ _); cbn; [|split_and!; (done || lia)].
      destruct (step =? 0); cbn; [split_and!; (done || lia)|].
      destruct (step =? 1); cbn; rewrite ?add_item_mode, ?add_item_room; cbn;
        split_and!; (done || lia).
    + destruct (ROOMS r) as [data|] eqn:E; cbn; [|split_and!; (done || lia)].
      destruct (room_in_catalog _ _ E) as [->|[->|[->|[->|[->|[->|[->|[->|[->| ->]]]]]]]]];
        try done; cbv in E; injection E as <-; cbn.
      all: try (destruct (str_in _ _); cbn; [|split_and!; (done || lia)]).
      all: try (destruct (validate_room_10 _ _ _ _) as [[|] [|]]; cbn).
      all: unfold send_room; run_handler; calc_rooms; cbn.
      all: try destruct (sala3_png env); cbn.
      all: rewrite ?add_item_mode, ?add_item_room; cbn.
      all: split_and!; (done || lia).
Qed.

Lemma cmd_pista_frame (s : Escape) :
  room (final (cmd_pista s)) = room s /\ mode (final (cmd_pista s)) = mode s /\
  completed (final (cmd_pista s)) = completed s.
Proof.
  destruct s as [m r inv ts pen hu att comp od io fh jk step]. cbn.
  unfold cmd_pista. run_handler. cbn.
  destruct m; [|done]. destruct comp; [done|]. destruct io; [done|].
  destruct (r =? 0); [done|]. destruct (ROOMS r) as [data|]; [|done]. cbn.
  destruct (hints data) as [|h l]; [done|]. cbn.
  destruct (_ <=? _); [done|].
  destruct (0 <? fh); cbn; destruct (list_index _ _); done.
Qed.

End Frame.

Section Sessions.

Context (U : Unicode).

(** The clock only matters for the start time of a record created on the
    spot. *)
Lemma st_room_clock (now now' : Z) (ctx : BotContext) :
  room (st now ctx) = room (st now' ctx).
Proof.
  unfold st, get_container.
  destruct ctx as [[c|] [u|]]; cbn; repeat case_bool_decide; done.
Qed.

(** After a handler that keeps the mode, [st(context)] is the record the
    handler left. *)
Lemma st_with_st {A} (now now' : Z) (m : M A) (ctx : BotContext) :
  mode (final (m (st now ctx))) = mode (st now ctx) ->
  st now' (fst (with_st now m ctx)) = final (m (st now ctx)).
Proof.
  unfold st, with_st, get_container.
  destruct ctx as [[c|] u]; cbn.
  - case_bool_decide as Hc; cbn.
    + intros Hm. rewrite Hm. by decide_true.
    + intros _. by decide_false.
  - done.
Qed.

(** A handler that leaves the record of a completed game as it is leaves
    the whole context as it is. *)
Lemma with_st_unchanged {A} (now : Z) (m : M A) (ctx : BotContext) :
  completed (st now ctx) = true ->
  final (m (st now ctx)) = st now ctx ->
  fst (with_st now m ctx) = ctx.
Proof.
  unfold st, with_st, get_container.
  destruct ctx as [[c|] [u|]]; cbn; repeat case_bool_decide; cbn;
    try done; intros _ ->; done.
Qed.

(** C7, as amended.  An event that is not a restart or a choice of mode
    never lowers the room number, unless it is one of the jumps: the
    buttons "enter room 1" and "skip" and the accepted answer of an
    optional room set the room to their own target (room 1, the room
    named by the skip button, the return room of the optional) whatever
    the current room is. *)
Theorem room_order (env : Env) (ev : Event) (ctx : BotContext) (now' : Z) :
  is_reset ev = false ->
  let before := st (now_ts env) ctx in
  let after := st now' (fst (handle U env ev ctx)) in
  room before <= room after \/ jump_target ev before = Some (room after).
Proof.
  intros Hev before after. unfold after, before. clear after before.
  destruct ev as [ | | | | |data private|[raw|]]; cbn -[st with_st].
  - left. by rewrite (st_room_clock now' (now_ts env)).
  - left. by rewrite (st_room_clock now' (now_ts env)).
  - left. rewrite st_with_st by done. cbn. lia.
  - left. rewrite st_with_st by done. cbn. lia.
  - left. destruct (cmd_pista_frame (st (now_ts env) ctx)) as (Hr & Hm & _).
    rewrite st_with_st by done. lia.
  - destruct data; try done; cbn -[st with_st].
    + left. by rewrite (st_room_clock now' (now_ts env)).
    + right. destruct (send_room_frame env 1 (st (now_ts env) ctx)) as (Hr & Hm & _).
      rewrite st_with_st by done. by rewrite Hr.
    + left. rewrite st_with_st; run_handler; case_bool_decide; cbn; (done || lia).
    + right.
      destruct (send_room_frame env next_room (st (now_ts env) ctx)) as (Hr & Hm & _).
      rewrite st_with_st by done. by rewrite Hr.
  - destruct (on_text_st_frame U env raw (st (now_ts env) ctx)) as (Hm & Hmain & Hopt).
    rewrite st_with_st by done.
    generalize dependent (st (now_ts env) ctx). intros s.
    generalize (final (on_text_st U env raw s)). intros s' Hm Hmain Hopt.
    destruct (in_optional s) as [o|] eqn:Ho; cbn.
    + destruct (Hopt o eq_refl) as [->| ->]; [left; lia|by right].
    + left. by apply Hmain.
  - left. by rewrite (st_room_clock now' (now_ts env)).
Qed.

(** Every record the bot builds is consistent: a game is completed only
    by a text, which needs a mode, and no handler unsets the mode of a
    record it works on. *)
Lemma on_text_st_consistent (env : Env) (raw : str) (s : Escape) :
  consistent s -> consistent (final (on_text_st U env raw s)).
Proof.
  unfold consistent. intros Hs Hdone.
  destruct (on_text_st_frame U env raw s) as (Hm & _ & _). rewrite Hm.
  destruct (mode s) eqn:E; [done|]. apply Hs.
  revert Hdone. unfold on_text_st. run_handler. by rewrite E.
Qed.

Lemma cmd_pista_consistent (s : Escape) :
  consistent s -> consistent (final (cmd_pista s)).
Proof.
  unfold consistent. destruct (cmd_pista_frame s) as (_ & Hm & Hc).
  rewrite Hm, Hc. done.
Qed.

Lemma send_room_consistent (env : Env) (r : Z) (s : Escape) :
  consistent s -> consistent (final (send_room env r s)).
Proof.
  unfold consistent. destruct (send_room_frame env r s) as (_ & Hm & Hc).
  rewrite Hm, Hc. done.
Qed.

Lemma with_st_consistent {A} (now : Z) (m : M A) (ctx : BotContext) :
  (forall s, consistent s -> consistent (final (m s))) ->
  consistent_context ctx -> consistent_context (fst (with_st now m ctx)).
Proof.
  intros Hm [Hc Hu]. unfold with_st, get_container.
  assert (consistent (fresh now)) as Hfresh by done.
  destruct ctx as [[c|] [u|]]; cbn in *; repeat case_bool_decide; cbn;
    split; cbn; intros e [= <-]; eauto.
Qed.

Lemma handle_consistent (env : Env) (ev : Event) (ctx : BotContext) :
  consistent_context ctx -> consistent_context (fst (handle U env ev ctx)).
Proof.
  intros Hctx. destruct ev as [ | | | | |data private|[raw|]]; cbn -[with_st]; try done.
  - by apply with_st_consistent.
  - by apply with_st_consistent.
  - apply with_st_consistent; [|done]. apply cmd_pista_consistent.
  - destruct Hctx as [Hc Hu].
    destruct data; cbn -[with_st]; try done.
    + split; cbn; [done|]. by intros e [= <-].
    + destruct private; [done|]. split; cbn; [|done]. by intros e [= <-].
    + unfold get_container.
      destruct ctx as [[c|] [u|]]; cbn in *; repeat case_bool_decide; cbn;
        split; cbn; intros e [= <-]; eauto; done.
    + apply with_st_consistent; [|done]. apply send_room_consistent.
    + apply with_st_consistent; [|done]. intros s Hs. run_handler.
      by case_bool_decide.
    + apply with_st_consistent; [|done]. apply send_room_consistent.
  - apply with_st_consistent; [|done]. apply on_text_st_consistent.
Qed.

Lemma run_consistent (evs : list (Env * Event)) (ctx : BotContext) :
  consistent_context ctx -> consistent_context (run U evs ctx).
Proof.
  revert ctx. induction evs as [|[env ev] evs IH]; intros ctx Hctx; [done|].
  cbn. by apply IH, handle_consistent.
Qed.

Lemma st_consistent (now : Z) (ctx : BotContext) :
  consistent_context ctx -> consistent (st now ctx).
Proof.
  intros [Hc Hu]. unfold st, get_container.
  destruct ctx as [[c|] [u|]]; cbn in *; repeat case_bool_decide; cbn; eauto; done.
Qed.

(** C8, as amended.  In a session of any run of the bot, once the game is
    completed a text or a hint request is answered with the
    already-completed message and changes nothing; a declined restart
    changes nothing either and is answered with its own acknowledgement. *)
Theorem completed_ignores_text_and_hints (evs : list (Env * Event)) (env : Env) :
  let ctx := run U evs no_data in
  completed (st (now_ts env) ctx) = true ->
  handle U env CmdPista ctx = (ctx, [AlreadyCompleted]) /\
  (forall raw, handle U env (Text (Some raw)) ctx = (ctx, [AlreadyCompleted])) /\
  (forall private, handle U env (Pressed restart_no private) ctx = (ctx, [NotRestarted])).
Proof.
  intros ctx Hdone.
  assert (Hmode : mode (st (now_ts env) ctx) <> None).
  { apply st_consistent; [|done]. by apply run_consistent. }
  generalize dependent ctx. intros ctx Hdone Hmode.
  assert (Hpista : cmd_pista (st (now_ts env) ctx)
                   = Ret tt (st (now_ts env) ctx) [AlreadyCompleted]).
  { unfold cmd_pista. run_handler.
    destruct (mode (st (now_ts env) ctx)); [|done]. by rewrite Hdone. }
  assert (Htext : forall raw, on_text_st U env raw (st (now_ts env) ctx)
                   = Ret tt (st (now_ts env) ctx) [AlreadyCompleted]).
  { intros raw. unfold on_text_st. run_handler.
    destruct (mode (st (now_ts env) ctx)); [|done]. by rewrite Hdone. }
  split_and!; [|intros raw|done]; cbn -[st with_st].
  - rewrite (surjective_pairing (with_st _ _ _)). f_equal.
    + apply with_st_unchanged; [done|]. by rewrite Hpista.
    + unfold with_st, st in *. cbn in *. by rewrite Hpista.
  - rewrite (surjective_pairing (with_st _ _ _)). f_equal.
    + apply with_st_unchanged; [done|]. by rewrite Htext.
    + unfold with_st, st in *. cbn in *. by rewrite Htext.
Qed.

(** The commands that only report never change a completed session
    either. *)
Lemma completed_read_only (env : Env) (ev : Event) (ctx : BotContext) :
  completed (st (now_ts env) ctx) = true ->
  ev ∈ [CmdStart; CmdReiniciar; CmdInventario; CmdEstado; Text None] ->
  fst (handle U env ev ctx) = ctx.
Proof.
  intros Hdone Hev.
  repeat (apply elem_of_cons in Hev as [->|Hev]); [..|by apply elem_of_nil in Hev];
    cbn -[st with_st]; try done; by apply with_st_unchanged.
Qed.

End Sessions.

Section Normalizer.

Context (U : Unicode).

Lemma split_words (s : str) : Forall (word U) (split U s).
Proof.
  induction s as [|c s IH]; cbn; [constructor|].
  destruct (isspace U c) eqn:Ec; [done|].
  destruct s as [|d s']; [repeat constructor; done|].
  destruct (isspace U d) eqn:Ed.
  - constructor; [|done]. repeat constructor; done.
  - destruct (split U (d :: s')) as [|w ws]; [repeat constructor; done|].
    apply Forall_cons in IH as [[Hne Hw] Hws].
    constructor; [|done]. split; [done|by constructor].
Qed.

Lemma split_chars (s : str) (w : str) (c : N) :
  w ∈ split U s -> c ∈ w -> c ∈ s.
Proof.
  revert w. induction s as [|a s IH]; cbn; intros w Hw Hc.
  - by apply elem_of_nil in Hw.
  - destruct (isspace U a); [right; eauto|].
    destruct s as [|d s'].
    + apply list_elem_of_singleton in Hw as ->. done.
    + destruct (isspace U d).
      * apply elem_of_cons in Hw as [->|Hw]; [|right; eauto].
        apply list_elem_of_singleton in Hc as ->. left.
      * destruct (split U (d :: s')) as [|w0 ws] eqn:E.
        -- apply list_elem_of_singleton in Hw as ->.
           apply list_elem_of_singleton in Hc as ->. left.
        -- apply elem_of_cons in Hw as [->|Hw].
           ++ apply elem_of_cons in Hc as [->|Hc]; [left|right].
              apply (IH w0); [left|done].
           ++ right. apply (IH w); [by right|done].
Qed.

Lemma split_space (c : N) (s : str) :
  isspace U c = true -> split U (c :: s) = split U s.
Proof. intros H. cbn. by rewrite H. Qed.

Lemma split_cons2 (c d : N) (s : str) :
  isspace U c = false -> isspace U d = false ->
  split U (c :: d :: s) =
    match split U (d :: s) with
    | w :: ws => (c :: w) :: ws
    | [] => [[c]]
    end.
Proof.
  intros Hc Hd.
  change (split U (c :: d :: s))
    with (if isspace U c then split U (d :: s)
          else if isspace U d then [c] :: split U (d :: s)
          else match split U (d :: s) with
               | w :: ws => (c :: w) :: ws
               | [] => [[c]]
               end).
  by rewrite Hc, Hd.
Qed.

Lemma split_word_app (w t : str) :
  word U w ->
  t = [] \/ (exists d t', t = d :: t' /\ isspace U d = true) ->
  split U (w ++ t) = w :: split U t.
Proof.
  intros [Hne Hw] Ht. induction w as [|c w IH]; [done|].
  apply Forall_cons in Hw as [Hc Hw].
  destruct w as [|c' w'].
  - cbn [app]. destruct Ht as [->|(d & t' & -> & Hd)].
    + cbn. by rewrite Hc.
    + cbn. rewrite Hc, Hd. done.
  - specialize (IH ltac:(done) Hw).
    apply Forall_cons in Hw as [Hc' _].
    change ((c :: c' :: w') ++ t) with (c :: c' :: (w' ++ t)).
    rewrite split_cons2 by done.
    change (c' :: (w' ++ t)) with ((c' :: w') ++ t). by rewrite IH.
Qed.

(** Splitting the words joined by single spaces gives the words back. *)
Lemma split_join (ws : list str) :
  Forall (word U) ws -> split U (join [32%N] ws) = ws.
Proof.
  induction ws as [|w ws IH]; [done|]. intros [Hw Hws]%Forall_cons.
  destruct ws as [|w' ws'].
  - cbn. rewrite <- (app_nil_r w) at 1. rewrite split_word_app by (done || by left).
    done.
  - change (join [32%N] (w :: w' :: ws'))
      with (w ++ 32%N :: join [32%N] (w' :: ws')).
    rewrite split_word_app; [|done|right; eexists _, _; split; [done|apply space_isspace]].
    rewrite split_space by apply space_isspace. by rewrite IH.
Qed.

Lemma join_chars (ws : list str) (c : N) :
  c ∈ join [32%N] ws -> c = 32%N \/ exists w, w ∈ ws /\ c ∈ w.
Proof.
  induction ws as [|w ws IH]; cbn; [by intros ?%elem_of_nil|].
  destruct ws as [|w' ws'].
  - intros Hc. right. exists w. split; [left|done].
  - rewrite elem_of_app, elem_of_cons. intros [Hc|[->|Hc]].
    + right. exists w. split; [left|done].
    + by left.
    + destruct (IH Hc) as [->|(w0 & Hw0 & Hc0)]; [by left|].
      right. exists w0. split; [by right|done].
Qed.

Lemma join_first (ws : list str) :
  Forall (word U) ws -> ws <> [] ->
  exists c t, join [32%N] ws = c :: t /\ isspace U c = false.
Proof.
  intros Hws Hne. destruct ws as [|w ws]; [done|].
  apply Forall_cons in Hws as [[Hw Hc] _].
  destruct w as [|c w]; [done|]. apply Forall_cons in Hc as [Hc _].
  destruct ws; cbn; eauto.
Qed.

Lemma join_last (ws : list str) :
  Forall (word U) ws -> ws <> [] ->
  exists t c, join [32%N] ws = t ++ [c] /\ isspace U c = false.
Proof.
  induction ws as [|w ws IH]; [done|]. intros [[Hw Hc] Hws]%Forall_cons _.
  destruct ws as [|w' ws'].
  - cbn. destruct w as [|c0 w0] using rev_ind; [done|].
    rename w0 into t, c0 into c. clear IHw0.
    exists t, c. split; [done|].
    apply Forall_app in Hc as [_ Hc]. by apply Forall_cons in Hc as [Hc _].
  - destruct (IH Hws ltac:(done)) as (t & c & E & Hs).
    exists (w ++ 32%N :: t), c. split; [|done].
    change (join [32%N] (w :: w' :: ws'))
      with (w ++ 32%N :: join [32%N] (w' :: ws')).
    rewrite E. by rewrite <- app_assoc.
Qed.

Lemma lstrip_first (c : N) (t : str) :
  isspace U c = false -> lstrip U (c :: t) = c :: t.
Proof. intros H. cbn. by rewrite H. Qed.

(** Words joined by single spaces have nothing to strip. *)
Lemma strip_join (ws : list str) :
  Forall (word U) ws -> strip U (join [32%N] ws) = join [32%N] ws.
Proof.
  intros Hws. destruct ws as [|w ws]; [done|].
  destruct (join_first _ Hws ltac:(done)) as (c & t & E & Hc).
  destruct (join_last _ Hws ltac:(done)) as (t' & c' & E' & Hc').
  unfold strip, rstrip. rewrite E, lstrip_first by done. rewrite <- E, E'.
  rewrite rev_app_distr. cbn [rev app]. rewrite lstrip_first by done.
  change (c' :: rev t') with (rev [c'] ++ rev t').
  by rewrite <- rev_app_distr, rev_involutive.
Qed.

Lemma filter_all {A} (f : A -> bool) (l : list A) :
  (forall x, x ∈ l -> f x = true) -> List.filter f l = l.
Proof.
  induction l as [|a l IH]; cbn; [done|]. intros H.
  rewrite (H a) by left. f_equal. apply IH. intros x Hx. apply H. by right.
Qed.

Lemma drop_Mn_no_Mn (s : str) (c : N) : c ∈ drop_Mn U s -> is_Mn U c = false.
Proof.
  unfold drop_Mn. rewrite list_elem_of_In, filter_In.
  intros [_ H]. by apply negb_true_iff.
Qed.

(** The normal form is made of words joined by single spaces and holds no
    mark of category Mn. *)
Lemma normalize_shape (s : str) :
  exists ws, normalize U s = join [32%N] ws /\ Forall (word U) ws /\
             (forall c, c ∈ normalize U s -> is_Mn U c = false).
Proof.
  unfold normalize.
  set (x := drop_Mn U (nfd U (str_lower U (strip U s)))).
  exists (split U x). split; [done|]. split; [apply split_words|].
  intros c [->|(w & Hw & Hc)]%join_chars; [apply space_not_Mn|].
  apply (drop_Mn_no_Mn (nfd U (str_lower U (strip U s)))).
  by apply (split_chars x w).
Qed.

Lemma normalize_chars (s : str) (c : N) :
  c ∈ normalize U s -> c = 32%N \/ c ∈ nfd U (str_lower U (strip U s)).
Proof.
  unfold normalize. intros [->|(w & Hw & Hc)]%join_chars; [by left|right].
  apply (split_chars (drop_Mn U (nfd U (str_lower U (strip U s)))) w) in Hc;
    [|done].
  unfold drop_Mn in Hc. apply list_elem_of_In, filter_In in Hc as [Hc _].
  by apply list_elem_of_In.
Qed.

(** A normal form that lower-casing and canonical decomposition leave as
    it is is a fixed point of [normalize]. *)
Lemma normal_form_fixed (t : str) (ws : list str) :
  t = join [32%N] ws -> Forall (word U) ws ->
  (forall c, c ∈ t -> is_Mn U c = false) ->
  str_lower U t = t -> nfd U t = t ->
  normalize U t = t.
Proof.
  intros E Hws HMn Hlower Hnfd. unfold normalize.
  assert (strip U t = t) as -> by (rewrite E; by apply strip_join).
  rewrite Hlower, Hnfd.
  assert (drop_Mn U t = t) as ->.
  { apply filter_all. intros c Hc. apply negb_true_iff. by apply HMn. }
  rewrite E. by rewrite split_join.
Qed.

(** C10, as amended.  [normalize] leaves a normal form as it is whenever
    lower-casing and canonical decomposition leave that normal form as it
    is; stripping, the removal of marks and the collapse of white space
    never change it. *)
Theorem normalize_idempotent_when_stable (s : str) :
  str_lower U (normalize U s) = normalize U s ->
  nfd U (normalize U s) = normalize U s ->
  normalize U (normalize U s) = normalize U s.
Proof.
  intros Hlower Hnfd.
  destruct (normalize_shape s) as (ws & E & Hws & HMn).
  by apply (normal_form_fixed _ ws).
Qed.

Lemma lstrip_chars (s : str) (c : N) : c ∈ lstrip U s -> c ∈ s.
Proof.
  induction s as [|a s IH]; cbn; [done|].
  destruct (isspace U a); [right; auto|done].
Qed.

Lemma rev_chars (s : str) (c : N) : c ∈ rev s <-> c ∈ s.
Proof. rewrite !list_elem_of_In. symmetry. apply in_rev. Qed.

Lemma strip_chars (s : str) (c : N) : c ∈ strip U s -> c ∈ s.
Proof.
  unfold strip, rstrip. intros H.
  apply (proj1 (rev_chars _ _)), lstrip_chars, (proj1 (rev_chars _ _)) in H.
  by apply lstrip_chars.
Qed.

(** Characters of combining class 0 are never reordered. *)
Lemma canonical_order_starters (s : str) :
  Forall (fun c => combining U c = 0%N) s -> canonical_order U s = s.
Proof.
  induction 1 as [|c s Hc Hs IH]; cbn; [done|].
  fold (canonical_order U s). rewrite IH.
  destruct s as [|d s']; [done|]. cbn.
  apply Forall_cons in Hs as [Hd _]. by rewrite Hd.
Qed.

End Normalizer.

(** ** ASCII text under the excerpt of the database *)

Section Ascii.

Import Excerpt.

Lemma lower1_ascii (c : N) : (c < 128)%N -> plain (lower1 c).
Proof.
  intros Hc. unfold lower1, plain.
  destruct ((65 <=? c)%N && (c <=? 90)%N) eqn:E.
  - apply andb_true_iff in E as [?%N.leb_le ?%N.leb_le]. lia.
  - apply andb_false_iff in E. case_bool_decide as Hin.
    + exfalso. repeat (apply elem_of_cons in Hin as [->|Hin]; [lia|]).
      by apply elem_of_nil in Hin.
    + split; [done|]. intros [? ?]. destruct E as [E|E]; apply N.leb_gt in E; lia.
Qed.

Lemma lower1_plain (c : N) : plain c -> lower1 c = c.
Proof.
  intros [Hc Hlow]. unfold lower1.
  destruct ((65 <=? c)%N && (c <=? 90)%N) eqn:E.
  - apply andb_true_iff in E as [?%N.leb_le ?%N.leb_le]. lia.
  - case_bool_decide as Hin; [|done].
    exfalso. repeat (apply elem_of_cons in Hin as [->|Hin]; [lia|]).
    by apply elem_of_nil in Hin.
Qed.

Lemma lower_plain (t : str) : Forall plain t -> str_lower ucd t = t.
Proof.
  induction 1 as [|c t Hc Ht IH]; cbn in *; [done|].
  rewrite lower1_plain by done. by f_equal.
Qed.

Lemma decomp_ascii (c : N) : (c < 128)%N -> decomp c = [c].
Proof.
  intros Hc. unfold decomp.
  repeat match goal with
         | |- context [N.eqb c ?k] => destruct (N.eqb_spec c k); [lia|]
         end.
  done.
Qed.

Lemma ccc_ascii (c : N) : (c < 128)%N -> ccc c = 0%N.
Proof.
  intros Hc. unfold ccc. case_bool_decide as Hin.
  - exfalso. repeat (apply elem_of_cons in Hin as [->|Hin]; [lia|]).
    by apply elem_of_nil in Hin.
  - repeat match goal with
           | |- context [N.eqb c ?k] => destruct (N.eqb_spec c k); [lia|]
           end.
    done.
Qed.

Lemma nfd_ascii (t : str) : Forall (fun c => (c < 128)%N) t -> nfd ucd t = t.
Proof.
  intros Ht. unfold nfd.
  assert (flat_map (decomposition ucd) t = t) as ->.
  { induction Ht as [|c t Hc Ht IH]; cbn; [done|].
    rewrite decomp_ascii by done. cbn. by f_equal. }
  apply canonical_order_starters.
  eapply Forall_impl; [exact Ht|]. intros c Hc. by apply ccc_ascii.
Qed.

(** The normal form of ASCII text is lower-case ASCII. *)
Lemma normalize_ascii (s : str) :
  Forall (fun c => (c < 128)%N) s -> Forall plain (normalize ucd s).
Proof.
  intros Hs. apply Forall_forall. intros c [->|Hc]%normalize_chars.
  - split; lia.
  - assert (Forall (fun c => (c < 128)%N) (str_lower ucd (strip ucd s))) as Hl.
    { apply Forall_forall. intros d Hd. cbn in Hd.
      apply list_elem_of_fmap in Hd as (d0 & -> & Hd0).
      apply strip_chars in Hd0. apply (lower1_ascii d0).
      by apply (proj1 (Forall_forall _ _) Hs). }
    rewrite nfd_ascii in Hc by done. cbn in Hc.
    apply list_elem_of_fmap in Hc as (d0 & -> & Hd0).
    apply strip_chars in Hd0. apply lower1_ascii.
    by apply (proj1 (Forall_forall _ _) Hs).
Qed.

(** On ASCII text [normalize] is idempotent. *)
Lemma normalize_idempotent_ascii (s : str) :
  Forall (fun c => (c < 128)%N) s ->
  normalize ucd (normalize ucd s) = normalize ucd s.
Proof.
  intros Hs. pose proof (normalize_ascii s Hs) as Hplain.
  destruct (normalize_shape ucd s) as (ws & E & Hws & HMn).
  apply (normal_form_fixed ucd _ ws); try done.
  - by apply lower_plain.
  - apply nfd_ascii. eapply Forall_impl; [exact Hplain|]. by intros c [? _].
Qed.

End Ascii.

(** ** The properties on concrete games *)

Section Scenarios.

Import Excerpt.

Ltac by_computation := vm_compute; first [reflexivity | discriminate | done].

Ltac is_set := let H := fresh in intros H; vm_compute in H; discriminate H.

Ltac is_playing := unfold playing; repeat split; first [by_computation | is_set].

(** C1 as stated fails: between commas the specification keeps the empty
    token, which makes "renuncia,,oracion" a submission of three tokens
    that cannot all be in the inventory; the bot drops it, sees two
    tokens, accepts them with the joker and spends it. *)
Lemma double_comma_spends_the_joker :
  let s := st 70 (run ucd to_room_10_with_joker no_data) in
  let raw := lit "renuncia,,oracion" in
  let r := on_text_st ucd (at_ 70) raw s in
  (playing s /\ room s = 10 /\ jokers s = 1) /\
  unique_tokens_spec ucd raw = [lit "renuncia"; []; lit "oracion"] /\
  ~ (forall x, x ∈ take 3 (unique_tokens_spec ucd raw) ->
               x ∈ map (normalize ucd) (inventory s)) /\
  completed (final r) = true /\
  jokers (final r) = 0.
Proof.
  split_and!; try by_computation; try is_set.
  intros H. specialize (H []).
    revert H. vm_compute. intros H.
    assert (Hin : ([] : str) ∈ [[114; 101; 110; 117; 110; 99; 105; 97]; [];
                               [111; 114; 97; 99; 105; 111; 110]]%N)
      by (right; left).
  specialize (H Hin).
  repeat (apply elem_of_cons in H as [H|H]; [discriminate H|]).
  by apply elem_of_nil in H.
Qed.

(** Two held items and the joker: the joker is spent. *)
Lemma room10_text_witness :
  let s := st 70 (run ucd to_room_10_with_joker no_data) in
  let r := on_text_st ucd (at_ 70) (lit "Renuncia, ORACION") s in
  playing s /\ room s = 10 /\
  (completed (final r) = true -> jokers (final r) = jokers s - 1).
Proof.
  intros s r.
  assert (Hp : playing s) by is_playing.
  assert (Hr : room s = 10) by by_computation.
  split; [exact Hp|]. split; [exact Hr|].
  destruct (room10_text ucd (at_ 70) (lit "Renuncia, ORACION") s Hp Hr)
    as (_ & _ & _ & _ & H2 & _).
  apply H2; by_computation.
Defined.

(** The first three tokens decide.  With every item held, a submission that
    names an unknown token first and again last is refused: the token
    counts where it occurs first, so the first three are not all held. *)
Lemma first_three_tokens_decide :
  let s := st 70 (run ucd to_room_10_with_joker no_data) in
  let raw := lit "x,renuncia,oracion,sabiduria,x" in
  unique_tokens ucd raw = [lit "x"; lit "renuncia"; lit "oracion"; lit "sabiduria"] /\
  validate_room_10 ucd raw (inventory s) (jokers s) = (false, false) /\
  validate_room_10 ucd (lit "renuncia,oracion,sabiduria,x") (inventory s) (jokers s)
    = (true, false) /\
  unique_tokens ucd (lit "a,b,a") = [lit "a"; lit "b"].
Proof. by_computation. Qed.



(** C4 as stated fails: with the step out of range the text resets the
    step and is not counted as an attempt. *)
Lemma room4_recovery_is_not_counted :
  let s := set_s4_step 3
             (st 14 (run ucd (three_rooms ++ [presses 13 (opt_skip OptA 4)]) no_data)) in
  let r := on_text_st ucd (at_ 20) (lit "humildad") s in
  (playing s /\ room s = 4 /\ s4_step s = 3) /\
  attempts (final r) = attempts s /\
  attempts (final r) !! 4 <> Some (default 0 (attempts s !! 4) + 1) /\
  s4_step (final r) = 0 /\
  sent r = [Room4Restart].
Proof.
  split_and!; try by_computation; is_set.
Qed.

(** The first answer of room 4, with a capital and spaces around it. *)
Lemma room4_text_witness :
  let s := st 14 (run ucd (three_rooms ++ [presses 13 (opt_skip OptA 4)]) no_data) in
  let r := on_text_st ucd (at_ 20) (lit " Humildad ") s in
  playing s /\ room s = 4 /\
  final r = set_s4_step 1 (inc_attempts 4 s) /\ sent r = [Room4Second].
Proof.
  intros s r.
  assert (Hp : playing s) by is_playing.
  assert (Hr : room s = 4) by by_computation.
  split; [exact Hp|]. split; [exact Hr|].
  destruct (room4_text ucd (at_ 20) (lit " Humildad ") s Hp Hr) as [_ H].
  destruct (H (lit "humildad")) as (_ & H0 & _); [by_computation..|].
  apply H0; by_computation.
Defined.

(** C5 as stated fails: room 3 stays the current room while its offer is
    pending, and the accepted answer given a second time adds no item. *)
Lemma repeated_answer_adds_no_item :
  let s := st 15 (run ucd three_rooms no_data) in
  let r := on_text_st ucd (at_ 15) (lit "Desierto") s in
  (playing s /\ room s = 3) /\
  normalize ucd (lit "Desierto") ∈ map (normalize ucd) [lit "desierto"] /\
  sent r = [RoomSuccess 3; OptionalOffer OptA 4] /\
  inventory (final r) = inventory s /\
  length (inventory (final r)) <> S (length (inventory s)).
Proof.
  split_and!; try by_computation; try is_set.
  vm_compute. left.
Qed.

(** Room 1 solved in capitals and with a double space. *)
Lemma plain_room_text_witness :
  let s := st 2 (run ucd [presses 0 mode_individual; presses 1 enter_1] no_data) in
  let r := on_text_st ucd (at_ 5) (lit "VENDE lo que  tienes y dalo a los pobres") s in
  playing s /\ room s = 1 /\ 1 ∈ plain_rooms /\
  room (final r) = 2 /\ inventory (final r) = [lit "RENUNCIA"].
Proof.
  intros s r.
  assert (Hp : playing s) by is_playing.
  assert (Hr : room s = 1) by by_computation.
  assert (Hn : 1 ∈ plain_rooms) by left.
  split; [exact Hp|]. split; [exact Hr|]. split; [exact Hn|].
  destruct (plain_room_text ucd (at_ 5)
              (lit "VENDE lo que  tienes y dalo a los pobres") s 1 Hp Hr Hn)
    as (data & it & Hdata & Hit & _ & Hyes & _).
  injection Hdata as <-. injection Hit as <-.
  destruct Hyes as (Hinv & _ & Hroom & _); [vm_compute; left|].
  split; [exact Hroom|]. etransitivity; [exact Hinv|by_computation].
Defined.

(** Optional room A solved: one free hint, back in room 4. *)
Lemma optional_room_text_witness :
  let s := st 14 (run ucd (three_rooms ++ [presses 13 (opt_enter OptA)]) no_data) in
  let r := on_text_st ucd (at_ 20) (lit "Escuchar") s in
  mode s <> None /\ completed s = false /\ in_optional s = Some OptA /\
  free_hints (final r) = free_hints s + 1 /\ room (final r) = 4 /\
  in_optional (final r) = None.
Proof.
  intros s r.
  assert (Hm : mode s <> None) by is_set.
  assert (Hc : completed s = false) by by_computation.
  assert (Ho : in_optional s = Some OptA) by by_computation.
  split; [exact Hm|]. split; [exact Hc|]. split; [exact Ho|].
  destruct (optional_room_text ucd (at_ 20) (lit "Escuchar") s OptA Hm Hc Ho)
    as [_ Hyes].
  destruct Hyes as (_ & _ & Hfree & _ & _ & Hopt & Hroom & _); [vm_compute; left|].
  split; [exact Hfree|]. split; [exact Hroom|exact Hopt].
Defined.

(** C7 as stated fails: the button "enter room 1" of the first message can
    still be pressed in room 3, and sends the session back to room 1. *)
Lemma stale_button_lowers_the_room :
  let ctx := run ucd two_rooms no_data in
  let ev := Pressed enter_1 true in
  let after := fst (handle ucd (at_ 10) ev ctx) in
  is_reset ev = false /\ room (st 10 ctx) = 3 /\ room (st 10 after) = 1.
Proof.
  split_and!; by_computation.
Qed.

(** The answer of room 1 does not lower the room. *)
Lemma room_order_witness :
  let ctx := run ucd [presses 0 mode_individual; presses 1 enter_1] no_data in
  let ev := Text (Some (lit "Vende lo que tienes y dalo a los pobres")) in
  let after := fst (handle ucd (at_ 5) ev ctx) in
  is_reset ev = false /\
  (room (st 5 ctx) <= room (st 6 after) \/
   jump_target ev (st 5 ctx) = Some (room (st 6 after))).
Proof.
  intros ctx ev after.
  assert (Hev : is_reset ev = false) by reflexivity.
  split; [exact Hev|].
  exact (room_order ucd (at_ 5) ev ctx 6 Hev).
Defined.

(** C8 as stated fails: after the game is completed the button "enter
    room 1" still sets the room to 1 and sends the prompt of room 1. *)
Lemma button_after_completion_changes_the_record :
  let ctx := run ucd whole_game no_data in
  let after := handle ucd (at_ 70) (Pressed enter_1 true) ctx in
  (completed (st 70 ctx) = true /\ room (st 70 ctx) = 10) /\
  room (st 70 (fst after)) = 1 /\
  st 70 (fst after) <> st 70 ctx /\
  snd after = [RoomText 1].
Proof.
  split_and!; try by_computation; is_set.
Qed.

(** A hint request after a whole game. *)
Lemma completed_ignores_text_and_hints_witness :
  let ctx := run ucd whole_game no_data in
  completed (st 70 ctx) = true /\
  handle ucd (at_ 70) CmdPista ctx = (ctx, [AlreadyCompleted]).
Proof.
  intros ctx.
  assert (Hdone : completed (st 70 ctx) = true) by by_computation.
  split; [exact Hdone|].
  exact (proj1 (completed_ignores_text_and_hints ucd whole_game (at_ 70) Hdone)).
Defined.

(** C10 as stated fails.  U+302E and U+1D165 are spacing marks of
    combining classes 224 and 216, kept apart by U+034F, a mark of
    category Mn and class 0.  [normalize] removes U+034F; a second
    [normalize] then finds the two marks out of canonical order and swaps
    them. *)
Lemma normalize_is_not_idempotent :
  let s := [12334; 847; 119141]%N in
  normalize ucd s = [12334; 119141]%N /\
  normalize ucd (normalize ucd s) = [119141; 12334]%N /\
  normalize ucd (normalize ucd s) <> normalize ucd s.
Proof.
  split_and!; try by_computation; is_set.
Qed.

(** A sentence with capitals and runs of spaces. *)
Lemma normalize_idempotent_when_stable_witness :
  let s := lit "  Vende  LO que tienes " in
  str_lower ucd (normalize ucd s) = normalize ucd s /\
  nfd ucd (normalize ucd s) = normalize ucd s /\
  normalize ucd (normalize ucd s) = normalize ucd s.
Proof.
  intros s.
  assert (Hl : str_lower ucd (normalize ucd s) = normalize ucd s) by by_computation.
  assert (Hn : nfd ucd (normalize ucd s) = normalize ucd s) by by_computation.
  split; [exact Hl|]. split; [exact Hn|].
  exact (normalize_idempotent_when_stable ucd s Hl Hn).
Defined.

(** Every accepted answer of the catalog, every expected word of room 4
    and the normal form of every reward is left as it is by [normalize]. *)
Lemma catalog_is_normal :
  Forall (fun a => normalize ucd a = a)
    ([lit "vende lo que tienes y dalo a los pobres"; lit "b"; lit "desierto";
      lit "aliento"; lit "falso"; lit "caridad"; lit "humildad"; lit "fe";
      lit "pobreza"; lit "perseverancia"; lit "escuchar"; lit "compasion"]
     ++ expected).
Proof.
  repeat constructor.
Qed.

End Scenarios.

(** ** What the handlers leave behind *)

Section Outcomes.

Context (U : Unicode) (env : Env).

Lemma send_room_final (r : Z) (s : Escape) :
  final (send_room env r s) = enter_room r s.
Proof.
  unfold send_room, enter_room. run_handler. cbn.
  destruct (r =? 4); cbn; destruct (ROOMS r) as [data|]; cbn; try done;
    destruct (image data); try destruct (sala3_png env); done.
Qed.

(** X1.  [send_room] writes the room before it looks the room up: for a room
    that is not in the catalog it raises [KeyError], sends nothing, and
    the record has the unknown room all the same.  For a room of the
    catalog it sends one prompt of that room and returns. *)
Theorem send_room_effect (r : Z) (s : Escape) :
  let res := send_room env r s in
  final res = enter_room r s /\
  room (final res) = r /\
  (ROOMS r = None -> raises res = true /\ sent res = []) /\
  (in_catalog r ->
     raises res = false /\ exists prompt, prompt ∈ room_prompts r /\ sent res = [prompt]).
Proof.
  cbn zeta. split; [apply send_room_final|]. split.
  { rewrite send_room_final. unfold enter_room. by destruct (r =? 4). }
  unfold send_room. run_handler. cbn. split.
  - intros ->. by destruct (r =? 4).
  - intros Hr. destruct (ROOMS r) as [data|] eqn:E.
    + unfold room_prompts.
      destruct (r =? 4); cbn; destruct (image data); try destruct (sala3_png env);
        cbn; (split; [done|]); eexists; (split; [|reflexivity]); in_list.
    + apply ROOMS_None in E. unfold in_catalog in Hr. lia.
Qed.

Ltac settle_send_room :=
  match goal with
  | |- context [send_room ?e ?r ?x] =>
      let H := fresh in
      pose proof (send_room_final r x) as H;
      destruct (send_room e r x); cbn in H |- *; rewrite H; clear H
  end.

(** Every text leaves one of the records of [text_outcome]. *)
Lemma on_text_st_outcome (raw : str) (s : Escape) :
  text_outcome U raw s (final (on_text_st U env raw s)).
Proof.
  destruct s as [m r inv ts pen hu att comp od io fh jk step].
  set (s := {| mode := m; room := r; inventory := inv; start_ts := ts;
               penalty_sec := pen; hints_used := hu; attempts := att;
               completed := comp; optional_done := od; in_optional := io;
               free_hints := fh; jokers := jk; s4_step := step |}).
  unfold on_text_st. run_handler. cbn -[send_room].
  destruct m as [m|]; [|apply text_ignored].
  destruct comp; [apply text_ignored|].
  destruct io as [o|].
  - destruct (str_in _ _); cbn -[send_room]; [|apply text_ignored].
    pose proof (text_optional U raw s o eq_refl) as H.
    destruct o; cbn -[send_room]; settle_send_room; exact H.
  - destruct (Z.eqb_spec r 0) as [->|Hr0]; [apply text_ignored|].
    unfold handle_room4_sequence. run_handler. cbn -[send_room].
    destruct (Z.eqb_spec r 4) as [->|Hr4]; cbn -[send_room].
    + destruct ((step <? 0) || (2 <? step)) eqn:Hstep; cbn -[send_room].
      { exact (text_room4_reset U raw s eq_refl eq_refl). }
      apply orb_false_iff in Hstep as [H0%Z.ltb_ge H2%Z.ltb_ge].
      assert (step = 0 \/ step = 1 \/ step = 2) as [->|[->| ->]] by lia;
        cbn -[send_room];
        match goal with
        | |- context [expected !! ?n] =>
            let v := eval vm_compute in (expected !! n) in
            change (expected !! n) with v
        end; cbn -[send_room];
        (destruct (str_eqb _ _); cbn -[send_room];
          [|exact (text_counted U raw s eq_refl ltac:(done))]).
      * exact (text_room4_next U raw s eq_refl eq_refl ltac:(cbn; lia)).
      * exact (text_room4_next U raw s eq_refl eq_refl ltac:(cbn; lia)).
      * settle_send_room;
          exact (text_room4_done U raw s eq_refl eq_refl eq_refl).
    + destruct (ROOMS r) as [data|] eqn:E; cbn -[send_room];
        [|exact (text_counted U raw s eq_refl Hr0)].
      destruct (Z.eqb_spec r 10) as [->|Hr10]; cbn -[send_room].
      * cbv in E. injection E as <-.
        destruct (validate_room_10 U raw inv jk) as [[|] used] eqn:Hv; cbn -[send_room];
          [|exact (text_counted U raw s eq_refl Hr0)].
        pose proof (text_completed U raw s used eq_refl eq_refl ltac:(done) eq_refl Hv) as H.
        destruct used; exact H.
      * destruct (str_in _ _); cbn -[send_room];
          [|exact (text_counted U raw s eq_refl Hr0)].
        destruct (OPTIONAL_OFFER_POINTS r) as [[o n]|] eqn:Eo; cbn -[send_room].
        -- refine (text_checkpoint U raw s data eq_refl E _). cbn. rewrite Eo. eauto.
        -- settle_send_room;
             exact (text_solved U raw s data eq_refl E Hr4 Hr10 Eo).
Qed.

(** A hint request leaves the record as it is, or counts the request and
    then takes a free hint or adds the penalty. *)
Lemma cmd_pista_outcome (s : Escape) :
  let used := default 0 (hints_used s !! room s) in
  let counted := set_hints_used (<[room s := used + 1]> (hints_used s)) s in
  final (cmd_pista s) = s \/
  final (cmd_pista s) = counted \/
  (0 < free_hints s /\ final (cmd_pista s) = set_free_hints (free_hints s - 1) counted) \/
  (free_hints s <= 0 /\
   final (cmd_pista s) = set_penalty_sec (penalty_sec s + 30 * (used + 1)) counted).
Proof.
  destruct s as [m r inv ts pen hu att comp od io fh jk step]. cbn.
  unfold cmd_pista. run_handler. cbn.
  destruct m; [|by left]. destruct comp; [by left|]. destruct io; [by left|].
  destruct (r =? 0); [by left|]. destruct (ROOMS r) as [data|]; [|by left]. cbn.
  destruct (hints data) as [|h l]; [by left|]. cbn.
  destruct (_ <=? _); [right; by left|].
  destruct (Z.ltb_spec 0 fh); cbn; destruct (list_index _ _); cbn;
    right; right; (left + right); (split; [lia|done]).
Qed.

End Outcomes.

(** ** Properties kept along every run *)

Section Kept.

Context (U : Unicode) (allowed : Z -> Prop) (P : Escape -> Prop).
Hypothesis HP : kept U allowed P.

Lemma with_st_records {A} (now : Z) (m : M A) (ctx : BotContext) :
  (forall s, P s -> P (final (m s))) ->
  all_records P ctx -> all_records P (fst (with_st now m ctx)).
Proof.
  destruct HP as (Hfresh & _).
  intros Hm [Hc Hu]. unfold with_st, get_container.
  destruct ctx as [[c|] [u|]]; cbn in *; repeat case_bool_decide; cbn;
    split; cbn; intros e [= <-]; eauto.
Qed.

Lemma handle_kept (env : Env) (ev : Event) (ctx : BotContext) :
  targets allowed ev ->
  all_records P ctx -> all_records P (fst (handle U env ev ctx)).
Proof.
  destruct HP as (Hfresh & Hstart & Hrestart & Htext & Hpista & Henter & Hopt).
  intros Hev Hctx.
  destruct ev as [ | | | | |data private|[raw|]]; cbn -[with_st]; try done.
  - by apply with_st_records.
  - by apply with_st_records.
  - by apply with_st_records.
  - destruct data; cbn -[with_st] in *.
    + destruct Hctx as [Hc Hu]. split; cbn; [done|]. intros e [= <-]. apply Hstart.
    + destruct private; [done|]. destruct Hctx as [Hc Hu].
      split; cbn; [|done]. intros e [= <-]. apply Hstart.
    + destruct Hctx as [Hc Hu]. unfold get_container.
      destruct ctx as [[c|] [u|]]; cbn in *; repeat case_bool_decide; cbn;
        split; cbn; intros e [= <-]; eauto.
    + done.
    + apply with_st_records; [|done]. intros s Hs. rewrite send_room_final. eauto.
    + apply with_st_records; [|done]. intros s Hs. run_handler.
      case_bool_decide; cbn; eauto.
    + apply with_st_records; [|done]. intros s Hs. rewrite send_room_final. eauto.
  - apply with_st_records; [|done]. intros s Hs.
    eapply Htext; [exact Hs|apply on_text_st_outcome].
Qed.

Lemma run_kept (evs : list (Env * Event)) (ctx : BotContext) :
  Forall (fun ev => targets allowed (snd ev)) evs ->
  all_records P ctx -> all_records P (run U evs ctx).
Proof.
  revert ctx. induction evs as [|[env ev] evs IH]; intros ctx Hevs Hctx; [done|].
  apply Forall_cons in Hevs as [Hev Hevs]. cbn. by apply IH, handle_kept.
Qed.

Lemma st_kept (now : Z) (ctx : BotContext) :
  all_records P ctx -> P (st now ctx).
Proof.
  destruct HP as (Hfresh & _).
  intros [Hc Hu]. unfold st, get_container.
  destruct ctx as [[c|] [u|]]; cbn in *; repeat case_bool_decide; cbn; eauto.
Qed.

(** In every run the session has the property. *)
Lemma session_kept (evs : list (Env * Event)) (now : Z) :
  Forall (fun ev => targets allowed (snd ev)) evs ->
  P (st now (run U evs no_data)).
Proof.
  intros Hevs. apply st_kept, run_kept; [done|]. by split.
Qed.

End Kept.

Lemma targets_any (evs : list (Env * Event)) :
  Forall (fun ev => targets (fun _ => True) (snd ev)) evs.
Proof. apply Forall_forall. intros [env ev] _. cbn. by destruct ev as [ | | | | |[]|]. Qed.

(** The buttons the bot builds lead to rooms of the catalog. *)
Lemma built_targets (ev : Event) : built_by_bot ev -> targets in_catalog ev.
Proof.
  destruct ev as [ | | | | |data private|]; try done.
  destruct data as [ | | | | |o|o n]; cbn; try done; unfold in_catalog; try lia.
  intros [r Hr]. unfold OPTIONAL_OFFER_POINTS in Hr.
  repeat case_match; simplify_eq; lia.
Qed.

Section Invariants.

Context (U : Unicode).

(** [add_item] touches the inventory and nothing else. *)
Lemma add_item_only_inventory (it : option str) (s : Escape) :
  add_item it s = set_inventory (inventory (add_item it s)) s.
Proof.
  unfold add_item. destruct it as [[|c i]|]; try by destruct s.
  destruct (str_in _ _); by destruct s.
Qed.

Lemma counter_positive (m : gmap Z Z) (k : Z) :
  (forall r v, m !! r = Some v -> 1 <= v) ->
  forall r v, <[k := default 0 (m !! k) + 1]> m !! r = Some v -> 1 <= v.
Proof.
  intros Hm r v. destruct (decide (k = r)) as [->|Hne].
  - rewrite lookup_insert_eq. intros [= <-].
    destruct (m !! r) as [w|] eqn:E; cbn; [|lia]. specialize (Hm r w E). lia.
  - rewrite lookup_insert_ne by done. apply Hm.
Qed.

Ltac open_add_item :=
  repeat match goal with
         | |- context [add_item ?it ?x] =>
             rewrite (add_item_only_inventory it x);
             generalize (inventory (add_item it x)); intro
         end.

Lemma counts_kept : kept U (fun _ => True) counts_ok.
Proof.
  unfold kept, counts_ok. split_and!.
  - intros now. cbn. split_and!; try lia; intros r v; by rewrite lookup_empty.
  - intros m now. cbn. split_and!; try lia; intros r v; by rewrite lookup_empty.
  - intros m. cbn. split_and!; try lia; intros r v; by rewrite lookup_empty.
  - intros raw s s' (Hpen & Hfree & Hjok & Hhints & Hatt) Hout.
    destruct Hout as [ |o Ho| | | | | | |used]; unfold enter_room, mark_done;
      open_add_item; repeat case_match; cbn;
      split_and!; try done; try lia; try by apply counter_positive.
    all: destruct o; cbn; first [lia | done].
  - intros s (Hpen & Hfree & Hjok & Hhints & Hatt).
    destruct (cmd_pista_outcome s) as [->|[->|[[Hf ->]|[Hf ->]]]]; cbn;
      split_and!; try done; try lia; try by apply counter_positive.
    assert (0 <= default 0 (hints_used s !! room s)); [|lia].
    destruct (hints_used s !! room s) as [w|] eqn:E; cbn; [|lia].
    specialize (Hhints _ _ E). lia.
  - intros r s _ H. unfold enter_room. by destruct (r =? 4).
  - intros o s H _. done.
Qed.

Lemma done_snoc (x o : OptId) (l : list OptId) :
  bool_decide (x ∈ l ++ [o]) = if decide (x = o) then true else bool_decide (x ∈ l).
Proof.
  destruct (decide (x = o)) as [->|Hne].
  - apply bool_decide_eq_true_2, elem_of_app. right. left.
  - apply bool_decide_ext. rewrite elem_of_app, list_elem_of_singleton. tauto.
Qed.

Lemma optionals_kept : kept U (fun _ => True) optionals_ok.
Proof.
  unfold kept, optionals_ok. split_and!.
  - intros now. cbn. split_and!; try done. constructor.
  - intros m now. cbn. split_and!; try done. constructor.
  - intros m. cbn. split_and!; try done. constructor.
  - intros raw s s' (Hnd & Hopen & Hfree & Hjok) Hout.
    destruct Hout as [ |o Ho| | | | | | |used].
    2: { specialize (Hopen o Ho). unfold mark_done. decide_false.
         assert (NoDup (optional_done s ++ [o])) as Hnd'.
         { apply NoDup_app. split_and!; [done| |apply NoDup_singleton].
           intros x Hx ->%list_elem_of_singleton. done. }
         unfold enter_room. destruct o; cbn; split_and!; try done.
         all: rewrite done_snoc; cbn.
         all: rewrite ?(bool_decide_eq_false_2 _ Hopen) in *.
         all: repeat case_decide; try done; lia. }
    all: unfold enter_room; open_add_item;
      repeat match goal with
             | |- context [Z.eqb ?a ?b] => destruct (Z.eqb a b)
             end;
      try destruct used; cbn; split_and!; try done.
    all: destruct (bool_decide (OptC ∈ optional_done s)); lia.
  - intros s (Hnd & Hopen & Hfree & Hjok).
    destruct (cmd_pista_outcome s) as [->|[->|[[Hf ->]|[Hf ->]]]]; cbn;
      split_and!; try done. lia.
  - intros r s _ H. unfold enter_room. by destruct (r =? 4).
  - intros o s (Hnd & Hopen & Hfree & Hjok) Ho. cbn. split_and!; try done.
    by intros o' [= <-].
Qed.

Lemma ROOMS_item (r : Z) (data : RoomData) :
  ROOMS r = Some data ->
  item data = None \/
  exists it, item data = Some it /\ it <> [] /\ it ∈ reward_items.
Proof.
  intros E.
  destruct (room_in_catalog _ _ E) as [->|[->|[->|[->|[->|[->|[->|[->|[->| ->]]]]]]]]];
    cbv in E; injection E as <-; cbn; [right..|by left];
    eexists; (split; [reflexivity|]); (split; [by vm_compute|]);
    unfold reward_items; in_list.
Qed.

Lemma inventory_ok_add (it : option str) (s : Escape) :
  inventory_ok s ->
  item_ok it ->
  inventory_ok (add_item it s).
Proof.
  intros [Hnd Hin] [->|(i & -> & Hne & Hi)]; [done|].
  unfold inventory_ok. destruct (add_item_spec i s Hne) as (-> & _).
  unfold str_in. case_bool_decide as Hheld; [done|]. split.
  - apply NoDup_app. split_and!; [done| |apply NoDup_singleton].
    intros x Hx ->%list_elem_of_singleton. done.
  - intros x [Hx|Hx]%elem_of_app; [auto|].
    by apply list_elem_of_singleton in Hx as ->.
Qed.

Lemma inventory_kept : kept U (fun _ => True) inventory_ok.
Proof.
  assert (Hfortaleza : item_ok (Some (lit "FORTALEZA"))).
  { right. eexists. split; [done|]. split; [by vm_compute|].
    unfold reward_items. in_list. }
  unfold kept. split_and!.
  - intros now. split; [constructor|]. by intros it ?%elem_of_nil.
  - intros m now. split; [constructor|]. by intros it ?%elem_of_nil.
  - intros m. split; [constructor|]. by intros it ?%elem_of_nil.
  - intros raw s s' Hs Hout.
    destruct Hout as [ |o Ho| | | | |data ? Hdata|data ? Hdata|used]; try done.
    + unfold enter_room, mark_done.
      destruct o; cbn; case_bool_decide; cbn; done.
    + unfold enter_room. cbn. by apply inventory_ok_add.
    + apply inventory_ok_add; [done|]. by apply ROOMS_item in Hdata.
    + assert (inventory_ok (add_item (item data) (inc_attempts (room s) s))) as H'.
      { apply inventory_ok_add; [done|]. by apply ROOMS_item in Hdata. }
      unfold enter_room. by destruct (_ =? _).
    + by destruct used.
  - intros s Hs.
    by destruct (cmd_pista_outcome s) as [->|[->|[[Hf ->]|[Hf ->]]]].
  - intros r s _ H. unfold enter_room. by destruct (r =? 4).
  - intros o s H _. done.
Qed.

Lemma rooms_kept : kept U in_catalog rooms_ok.
Proof.
  unfold kept, rooms_ok. split_and!.
  - intros now. cbn. lia.
  - intros m now. cbn. lia.
  - intros m. cbn. lia.
  - intros raw s s' (Hroom & Hstep & H4) Hout.
    destruct Hout as [ |o Ho| | | | |data ? Hdata|data ? Hdata|used].
    2: { unfold enter_room, mark_done.
         destruct o; cbn; try case_bool_decide; cbn; lia. }
    all: try (apply ROOMS_Some in Hdata as [? _]).
    all: unfold enter_room; open_add_item;
      repeat match goal with
             | |- context [Z.eqb ?a ?b] => destruct (Z.eqb_spec a b)
             end;
      try destruct used; cbn in *; lia.
  - intros s Hs.
    by destruct (cmd_pista_outcome s) as [->|[->|[[Hf ->]|[Hf ->]]]].
  - intros r s Hr (Hroom & Hstep & H4). unfold in_catalog in Hr.
    unfold enter_room. destruct (Z.eqb_spec r 4); cbn; lia.
  - intros o s H _. done.
Qed.

End Invariants.

(** ** Runs of the bot *)

Section Runs.

Context (U : Unicode).

(** X2.  In every run the penalty, the free hints and the jokers are never
    negative, and every counter of hints and of attempts that exists is at
    least 1. *)
Theorem counters_never_negative (evs : list (Env * Event)) (now : Z) :
  counts_ok (st now (run U evs no_data)).
Proof.
  apply (session_kept U (fun _ => True)); [apply counts_kept|apply targets_any].
Qed.

(** X3.  In every run no optional room is listed twice as done, the open
    optional room is not a done one, and a session never holds more than
    one free hint or more than one joker (none before the optional room
    that grants it is done). *)
Theorem credits_bounded (evs : list (Env * Event)) (now : Z) :
  optionals_ok (st now (run U evs no_data)).
Proof.
  apply (session_kept U (fun _ => True)); [apply optionals_kept|apply targets_any].
Qed.

(** X4.  In every run the inventory has no duplicates and holds reward
    items of the catalog only. *)
Theorem inventory_from_catalog (evs : list (Env * Event)) (now : Z) :
  inventory_ok (st now (run U evs no_data)).
Proof.
  apply (session_kept U (fun _ => True)); [apply inventory_kept|apply targets_any].
Qed.

Lemma built_run_targets (evs : list (Env * Event)) :
  Forall (fun ev => built_by_bot (snd ev)) evs ->
  Forall (fun ev => targets in_catalog (snd ev)) evs.
Proof.
  intros H. eapply Forall_impl; [exact H|]. intros [env ev]. apply built_targets.
Qed.

(** X5.  In every run with the buttons the bot builds, the room is 0..10
    and the step of room 4 is 0..3: no handler writes another value. *)
Theorem rooms_in_range (evs : list (Env * Event)) (now : Z) :
  Forall (fun ev => built_by_bot (snd ev)) evs ->
  let s := st now (run U evs no_data) in
  0 <= room s <= 10 /\ 0 <= s4_step s <= 3.
Proof.
  intros Hevs. cbn zeta.
  assert (H : rooms_ok (st now (run U evs no_data))).
  { apply (session_kept U in_catalog); [apply rooms_kept|].
    by apply built_run_targets. }
  destruct H as (Hroom & Hstep & _). done.
Qed.

Lemma send_room_returns (env : Env) (r : Z) (s : Escape) :
  in_catalog r -> raises (send_room env r s) = false.
Proof.
  intros Hr. unfold send_room. run_handler. cbn.
  destruct (ROOMS r) as [data|] eqn:E.
  - destruct (r =? 4); cbn; destruct (image data); try destruct (sala3_png env); done.
  - apply ROOMS_None in E. unfold in_catalog in Hr. lia.
Qed.

Ltac returns_send_room :=
  match goal with
  | |- context [send_room ?e ?r ?x] =>
      let H := fresh in
      assert (H : raises (send_room e r x) = false)
        by (apply send_room_returns; unfold in_catalog; cbn; lia);
      destruct (send_room e r x); cbn in H |- *; done
  end.

Lemma on_text_st_returns (env : Env) (raw : str) (s : Escape) :
  0 <= room s <= 10 -> raises (on_text_st U env raw s) = false.
Proof.
  destruct s as [m r inv ts pen hu att comp od io fh jk step]. cbn. intros Hr.
  unfold on_text_st. run_handler. cbn -[send_room].
  destruct m as [m|]; [|done]. destruct comp; [done|].
  destruct io as [o|].
  - destruct (str_in _ _); cbn -[send_room]; [|done].
    destruct o; cbn -[send_room]; returns_send_room.
  - destruct (Z.eqb_spec r 0) as [->|Hr0]; [done|].
    unfold handle_room4_sequence. run_handler. cbn -[send_room].
    destruct (Z.eqb_spec r 4) as [->|Hr4]; cbn -[send_room].
    + destruct ((step <? 0) || (2 <? step)) eqn:Hstep; cbn -[send_room]; [done|].
      apply orb_false_iff in Hstep as [H0%Z.ltb_ge H2%Z.ltb_ge].
      assert (step = 0 \/ step = 1 \/ step = 2) as [->|[->| ->]] by lia;
        cbn -[send_room];
        match goal with
        | |- context [expected !! ?n] =>
            let v := eval vm_compute in (expected !! n) in
            change (expected !! n) with v
        end; cbn -[send_room];
        (destruct (str_eqb _ _); cbn -[send_room]; [|done]); done.
    + destruct (ROOMS r) as [data|] eqn:E; cbn -[send_room].
      2: { apply ROOMS_None in E. lia. }
      destruct (Z.eqb_spec r 10) as [->|Hr10]; cbn -[send_room].
      * by destruct (validate_room_10 U raw inv jk) as [[|] [|]].
      * destruct (str_in _ _); cbn -[send_room]; [|done].
        destruct (OPTIONAL_OFFER_POINTS r) as [[o n]|]; cbn -[send_room]; [done|].
        returns_send_room.
Qed.

Lemma cmd_pista_returns (s : Escape) :
  0 <= room s <= 10 ->
  (forall r v, hints_used s !! r = Some v -> 1 <= v) ->
  raises (cmd_pista s) = false.
Proof.
  destruct s as [m r inv ts pen hu att comp od io fh jk step]. cbn. intros Hr Hhu.
  unfold cmd_pista. run_handler. cbn.
  destruct m; [|done]. destruct comp; [done|]. destruct io; [done|].
  destruct (Z.eqb_spec r 0); [done|].
  destruct (ROOMS r) as [data|] eqn:E; [|apply ROOMS_None in E; lia]. cbn.
  apply ROOMS_Some in E as [_ Hlen].
  destruct (hints data) as [|h0 [|h1 [|]]]; try done. cbn.
  change (Z.of_nat 2) with 2.
  assert (0 <= default 0 (hu !! r)) as Hused.
  { destruct (hu !! r) as [w|] eqn:Ew; cbn; [|lia]. specialize (Hhu _ _ Ew). lia. }
  set (used := default 0 (hu !! r)) in *.
  destruct (Z.leb_spec 2 (used + 1 - 1)); [done|].
  assert (exists h, list_index [h0; h1] (used + 1 - 1) = Some h) as [h Hh].
  { unfold list_index. replace (used + 1 - 1) with used by lia.
    assert (used = 0 \/ used = 1) as [->| ->] by lia; eexists; reflexivity. }
  destruct (0 <? fh); cbn; rewrite Hh; done.
Qed.

(** X6.  In a run with the buttons the bot builds no handler stops with an
    exception: every room looked up is in the catalog and every index is
    within its list. *)
Theorem no_exception (evs : list (Env * Event)) (env : Env) (ev : Event) :
  Forall (fun ev => built_by_bot (snd ev)) evs ->
  built_by_bot ev ->
  raised_by U env ev (run U evs no_data) = false.
Proof.
  intros Hevs Hev.
  assert (Hrooms : rooms_ok (st (now_ts env) (run U evs no_data))).
  { apply (session_kept U in_catalog); [apply rooms_kept|by apply built_run_targets]. }
  assert (Hcounts : counts_ok (st (now_ts env) (run U evs no_data))).
  { apply (session_kept U (fun _ => True)); [apply counts_kept|apply targets_any]. }
  destruct Hrooms as (Hr & _). destruct Hcounts as (_ & _ & _ & Hhu & _).
  apply built_targets in Hev.
  destruct ev as [ | | | | |data private|[raw|]]; cbn -[st]; try done.
  - by apply cmd_pista_returns.
  - destruct data; cbn -[st] in *; try done; by apply send_room_returns.
  - by apply on_text_st_returns.
Qed.

End Runs.

(** ** The score and the counters *)

Section Counters.

(** X7.  For a record that has a start time the score never grows with
    the clock: computed at a later first reading it is the same or lower,
    whatever the second readings; and it is never negative. *)
Theorem score_falls_with_time (s : Escape) (t0 now now' later later' : Z) :
  start_ts s = Some t0 -> now <= later ->
  0 <= stats_score (compute_score later later' s)
    <= stats_score (compute_score now now' s).
Proof.
  intros Hts Hnow. unfold compute_score, elapsed. rewrite Hts. cbn.
  destruct (completed s); repeat case_match;
    rewrite ?Z.ltb_lt, ?Z.ltb_ge in *; lia.
Qed.

Lemma sum_values_insert_new (d : gmap Z Z) (k v : Z) :
  d !! k = None -> sum_values (<[k := v]> d) = v + sum_values d.
Proof.
  intros Hk. unfold sum_values. rewrite map_fold_insert_L; [done| |done].
  intros. lia.
Qed.

(** Writing a counter changes the sum by the difference. *)
Lemma sum_values_insert (d : gmap Z Z) (k v : Z) :
  sum_values (<[k := v]> d) = sum_values d - default 0 (d !! k) + v.
Proof.
  destruct (d !! k) as [w|] eqn:E; cbn.
  - rewrite <- (insert_delete_eq d), sum_values_insert_new by apply lookup_delete_eq.
    rewrite <- (insert_delete_id d k w E) at 2.
    rewrite sum_values_insert_new by apply lookup_delete_eq. lia.
  - rewrite sum_values_insert_new by done. lia.
Qed.

(** X8.  [inc] adds exactly one to the total of attempts, whether the room
    had a counter or not, and so takes 5 points off the score, down to 0. *)
Theorem attempt_costs_five (r : Z) (s : Escape) (now now' : Z) :
  count_total_attempts (inc_attempts r s) = count_total_attempts s + 1 /\
  stats_score (compute_score now now' (inc_attempts r s))
    = Z.max 0 (stats_score (compute_score now now' s) - 5).
Proof.
  assert (H : count_total_attempts (inc_attempts r s) = count_total_attempts s + 1).
  { unfold count_total_attempts, inc_attempts. cbn. rewrite sum_values_insert. lia. }
  split; [done|]. unfold compute_score. rewrite H.
  unfold elapsed, count_total_hints_used. cbn.
  destruct (completed s); repeat case_match;
    rewrite ?Z.ltb_lt, ?Z.ltb_ge in *; lia.
Qed.

(** X9.  Two hints asked in a room where none was asked: both are given,
    in order; with two free hints they cost nothing, with one the second
    costs 60 seconds, with none they cost 30 + 60 seconds. *)
Theorem two_hints_cost (s : Escape) (data : RoomData) :
  playing s -> ROOMS (room s) = Some data ->
  hints_used s !! room s = None -> 0 <= free_hints s ->
  let first := cmd_pista s in
  let second := cmd_pista (final first) in
  let cost := if 2 <=? free_hints s then 0 else if free_hints s =? 1 then 60 else 90 in
  hints_used (final second) !! room s = Some 2 /\
  penalty_sec (final second) = penalty_sec s + cost /\
  free_hints (final second) = Z.max 0 (free_hints s - 2) /\
  exists h1 h2,
    hints data = [h1; h2] /\
    sent first = [if 0 <? free_hints s then FreeHint h1 else PaidHint h1 30] /\
    sent second = [if 1 <? free_hints s then FreeHint h2 else PaidHint h2 60].
Proof.
  intros Hp Hdata Hnone Hfree. cbn zeta.
  set (first := cmd_pista s). set (second := cmd_pista (final first)).
  set (cost := if 2 <=? free_hints s then 0 else if free_hints s =? 1 then 60 else 90).
  pose proof (ROOMS_Some _ _ Hdata) as [Hr Hlen].
  destruct (hints data) as [|h1 [|h2 [|]]] eqn:Eh; try done.
  destruct (cmd_pista_spec s data Hp Hdata) as [_ H1]; [rewrite Hnone; cbn; lia|].
  rewrite Hnone, Eh in H1. cbn -[cmd_pista] in H1. specialize (H1 h1 eq_refl).
  fold first in H1.
  assert (Hp1 : playing (final first) /\ room (final first) = room s /\
                hints_used (final first) !! room s = Some 1 /\
                free_hints (final first) = Z.max 0 (free_hints s - 1) /\
                penalty_sec (final first)
                  = penalty_sec s + (if 0 <? free_hints s then 0 else 30) /\
                sent first = [if 0 <? free_hints s then FreeHint h1 else PaidHint h1 30]).
  { destruct Hp as (Hm & Hc & Ho).
    destruct (Z.ltb_spec 0 (free_hints s)) as [Hf|Hf].
    - destruct (proj1 H1 Hf) as [-> ->]. cbn.
      rewrite lookup_insert_eq. split_and!; try done; lia.
    - destruct (proj2 H1 Hf) as [-> ->]. cbn.
      rewrite lookup_insert_eq. split_and!; try done; lia. }
  destruct Hp1 as (Hp1 & Hroom1 & Hused1 & Hfree1 & Hpen1 & Hsent1).
  clear H1. clearbody first.
  assert (Hdata1 : ROOMS (room (final first)) = Some data) by by rewrite Hroom1.
  destruct (cmd_pista_spec (final first) data Hp1 Hdata1) as [_ H2];
    [rewrite Hroom1, Hused1; cbn; lia|].
  rewrite Hroom1, Hused1, Eh in H2. cbn -[cmd_pista] in H2.
  specialize (H2 h2 eq_refl). fold second in H2. unfold cost.
  destruct (Z.ltb_spec 0 (free_hints (final first))) as [Hf|Hf].
  - destruct (proj1 H2 Hf) as [E2 S2]. clear H2. clearbody second. rewrite E2. cbn.
    rewrite lookup_insert_eq, Hpen1, Hfree1.
    assert ((2 <=? free_hints s) = true) as -> by lia.
    assert ((0 <? free_hints s) = true) as E0 by lia.
    assert ((1 <? free_hints s) = true) as E1 by lia.
    rewrite E0 in *. split_and!; try done; try lia.
    exists h1, h2. rewrite E1. done.
  - destruct (proj2 H2 Hf) as [E2 S2]. clear H2. clearbody second. rewrite E2. cbn.
    rewrite lookup_insert_eq, Hpen1.
    assert ((2 <=? free_hints s) = false) as -> by lia.
    assert ((1 <? free_hints s) = false) as E1 by lia.
    destruct (Z.ltb_spec 0 (free_hints s)) as [Hf0|Hf0].
    + assert ((free_hints s =? 1) = true) as -> by lia.
      split_and!; try done; try lia.
      exists h1, h2. rewrite E1. done.
    + assert ((free_hints s =? 1) = false) as -> by lia.
      split_and!; try done; try lia.
      exists h1, h2. rewrite E1. done.
Qed.

End Counters.

(** ** The two scopes *)

Section Scopes.

Context (U : Unicode).

Lemma with_st_group {A} (now : Z) (m : M A) (ctx : BotContext) :
  (forall s, mode (final (m s)) = mode s) ->
  group_chat ctx ->
  group_chat (fst (with_st now m ctx)) /\
  user_data (fst (with_st now m ctx)) = user_data ctx.
Proof.
  intros Hm (e & He & Hmode). unfold with_st, get_container, group_chat.
  destruct ctx as [c u]. cbn in *. subst c. decide_true. cbn.
  split; [|done]. eexists. split; [done|]. by rewrite Hm.
Qed.

Lemma with_st_individual {A} (now : Z) (m : M A) (ctx : BotContext) :
  ~ group_chat ctx -> chat_data (fst (with_st now m ctx)) = chat_data ctx.
Proof.
  intros Hno. unfold with_st, get_container.
  destruct ctx as [[c|] u]; cbn; [|done].
  case_bool_decide as Hc; [|done]. exfalso. apply Hno. by exists c.
Qed.

Lemma opt_enter_mode (opt_id : OptId) (s : Escape) :
  mode (final
          ((state <- get ;;
            if bool_decide (opt_id ∈ optional_done state) then send OptionalAlreadyDone
            else modify (set_in_optional (Some opt_id)) ;; send (OptionalText opt_id)) s))
  = mode s.
Proof. run_handler. by case_bool_decide. Qed.

(** X10.  The group mode of a chat is permanent: whatever the event, the
    shared record keeps the group mode, so the events of the chat keep
    going to the shared record; and no event but the choice of the
    individual mode touches the record of the player. *)
Theorem group_mode_is_permanent (env : Env) (ev : Event) (ctx : BotContext) :
  group_chat ctx ->
  let after := fst (handle U env ev ctx) in
  group_chat after /\
  ((forall private, ev <> Pressed mode_individual private) ->
   user_data after = user_data ctx).
Proof.
  intros Hg. cbn zeta.
  destruct ev as [ | | | | |data private|[raw|]]; cbn -[with_st]; try done.
  - destruct (with_st_group (now_ts env) cmd_inventario ctx) as [? ?]; done.
  - destruct (with_st_group (now_ts env) (cmd_estado env) ctx) as [? ?]; done.
  - destruct (with_st_group (now_ts env) cmd_pista ctx) as [? ?]; [|done..].
    intros s. apply cmd_pista_frame.
  - destruct data; cbn -[with_st].
    + split; [done|]. intros H. by destruct (H private).
    + destruct private; [done|]. split; [|done]. eexists. split; done.
    + destruct Hg as (e & He & Hmode). unfold get_container, group_chat.
      destruct ctx as [c u]. cbn in *. subst c. decide_true. cbn.
      split; [|done]. eexists. split; [done|]. cbn. done.
    + done.
    + destruct (with_st_group (now_ts env) (send_room env 1) ctx) as [? ?]; [|done..].
      intros s. apply send_room_frame.
    + destruct (with_st_group (now_ts env)
                  (state <- get ;;
                   if bool_decide (opt_id ∈ optional_done state)
                   then send OptionalAlreadyDone
                   else modify (set_in_optional (Some opt_id)) ;;
                        send (OptionalText opt_id)) ctx) as [? ?]; [|done..].
      intros s. apply opt_enter_mode.
    + destruct (with_st_group (now_ts env) (send_room env next_room) ctx) as [? ?];
        [|done..].
      intros s. apply send_room_frame.
  - destruct (with_st_group (now_ts env) (on_text_st U env raw) ctx) as [? ?]; [|done..].
    intros s. apply on_text_st_frame.
Qed.

(** X11.  While a chat has no shared record in group mode, no event but
    the choice of the group mode in a group touches the shared record:
    individual play never writes to it. *)
Theorem individual_play_leaves_shared_record (env : Env) (ev : Event) (ctx : BotContext) :
  ~ group_chat ctx ->
  ev <> Pressed mode_group false ->
  chat_data (fst (handle U env ev ctx)) = chat_data ctx.
Proof.
  intros Hno Hev.
  destruct ev as [ | | | | |data private|[raw|]]; cbn -[with_st]; try done;
    try by apply with_st_individual.
  destruct data; cbn -[with_st]; try done; try by apply with_st_individual.
  - by destruct private.
  - unfold get_container. destruct ctx as [[c|] u]; cbn; [|done].
    case_bool_decide as Hc; [|done]. exfalso. apply Hno. by exists c.
Qed.

(** X12.  The status and the inventory commands change nothing in the
    session: they answer with the score computed at the time of the
    request, or with the inventory and the credits, of the record as it
    was (a record created on the spot if there was none). *)
Theorem reports_change_nothing (env : Env) (ctx : BotContext) :
  let now := now_ts env in
  let s := st now ctx in
  st now (fst (handle U env CmdEstado ctx)) = s /\
  snd (handle U env CmdEstado ctx)
    = [Estado (mode s) (room s) (compute_score (score_ts env) (score_ts' env) s)
              (free_hints s) (jokers s)] /\
  st now (fst (handle U env CmdInventario ctx)) = s /\
  snd (handle U env CmdInventario ctx)
    = [Inventario (inventory s) (free_hints s) (jokers s)].
Proof.
  cbn zeta. cbn -[st with_st]. split_and!.
  - by rewrite st_with_st.
  - unfold with_st, st. by destruct (get_container _ _).
  - by rewrite st_with_st.
  - unfold with_st, st. by destruct (get_container _ _).
Qed.

Lemma text_outcome_completed (raw : str) (s s' : Escape) :
  text_outcome U raw s s' -> completed s' = true ->
  completed s = true \/
  (playing s /\ room s = 10 /\
   fst (validate_room_10 U raw (inventory s) (jokers s)) = true).
Proof.
  intros Hout.
  destruct Hout as [ |o Ho| | | | | | |used ? ? ? ? Hv]; unfold enter_room;
    rewrite ?add_item_completed; intros Hdone.
  9: { right. unfold playing. by rewrite Hv. }
  all: left; revert Hdone.
  all: try (repeat case_match; cbn; rewrite ?add_item_completed; cbn; done).
  unfold mark_done. destruct o; cbn; case_bool_decide; cbn; done.
Qed.

(** X13.  A game becomes completed in one way only: by a text of a session
    in play in room 10 that the validator accepts.  No button and no
    command completes a game. *)
Theorem completed_only_in_room_10 (env : Env) (ev : Event) (ctx : BotContext) (now' : Z) :
  let before := st (now_ts env) ctx in
  completed (st now' (fst (handle U env ev ctx))) = true ->
  completed before = true \/
  exists raw, ev = Text (Some raw) /\ playing before /\ room before = 10 /\
    fst (validate_room_10 U raw (inventory before) (jokers before)) = true.
Proof.
  cbn zeta.
  assert (Hclock : forall c, completed (st now' c) = completed (st (now_ts env) c)).
  { intros c. unfold st, get_container.
    destruct c as [[c|] [u|]]; cbn; repeat case_bool_decide; done. }
  destruct ev as [ | | | | |data private|[raw|]]; cbn -[st with_st].
  - rewrite Hclock. by left.
  - rewrite Hclock. by left.
  - rewrite st_with_st by done. by left.
  - rewrite st_with_st by done. by left.
  - destruct (cmd_pista_frame (st (now_ts env) ctx)) as (_ & Hm & Hc).
    rewrite st_with_st, Hc by done. by left.
  - destruct data; cbn -[st with_st].
    + unfold st, get_container. destruct ctx as [[c|] [u|]]; cbn;
        repeat case_bool_decide; cbn; by left.
    + destruct private; [rewrite Hclock; by left|].
      unfold st, get_container. destruct ctx as [[c|] [u|]]; cbn; done.
    + unfold st, get_container. destruct ctx as [[c|] [u|]]; cbn;
        repeat case_bool_decide; cbn; rewrite ?bool_decide_eq_true_2 by done;
        cbn; try done; repeat case_bool_decide; cbn; done.
    + rewrite Hclock. by left.
    + destruct (send_room_frame env 1 (st (now_ts env) ctx)) as (_ & Hm & Hc).
      rewrite st_with_st, Hc by done. by left.
    + rewrite st_with_st by apply opt_enter_mode. run_handler.
      case_bool_decide; cbn; by left.
    + destruct (send_room_frame env next_room (st (now_ts env) ctx)) as (_ & Hm & Hc).
      rewrite st_with_st, Hc by done. by left.
  - rewrite st_with_st by apply on_text_st_frame. intros Hdone.
    destruct (text_outcome_completed raw _ _
                (on_text_st_outcome U env raw (st (now_ts env) ctx)) Hdone)
      as [H|H]; [by left|right]. by exists raw.
  - rewrite Hclock. by left.
Qed.

End Scopes.

(** ** The tables, room 4 and the inventory *)

Section Tables.

Context (U : Unicode).

(** X14.  The two tables of the optional rooms agree: every offer is made
    in room 3, 6 or 8, and the room its skip button leads to is the next
    room, which is also the room the accepted answer of the optional
    returns to, and a room of the catalog. *)
Theorem offer_paths_agree (r : Z) (o : OptId) (n : Z) :
  OPTIONAL_OFFER_POINTS r = Some (o, n) ->
  r ∈ [3; 6; 8] /\ n = r + 1 /\ back_to (OPTIONALS o) = n /\ is_Some (ROOMS n).
Proof.
  unfold OPTIONAL_OFFER_POINTS. destruct r as [|p|p]; try done.
  do 4 (try destruct p as [p|p|]; try done); intros [= <- <-];
    (split_and!; [in_list|done|done|by eexists]).
Qed.

(** X15.  Room 4 consumes every text: outside room 4 the sequence handler
    answers [false] and does nothing; in room 4 it answers [true] whatever
    the text and the step, sends at least one message and never raises. *)
Theorem room4_takes_every_text (env : Env) (txt : str) (s : Escape) :
  (room s <> 4 -> handle_room4_sequence env txt s = Ret false s []) /\
  (room s = 4 ->
   exists s' out, handle_room4_sequence env txt s = Ret true s' out /\ out <> []).
Proof.
  split.
  - intros Hr. unfold handle_room4_sequence. run_handler.
    destruct (Z.eqb_spec (room s) 4); done.
  - intros Hr. unfold handle_room4_sequence. run_handler. rewrite Hr. cbn.
    destruct (s4_step s <? 0) eqn:Elo; cbn; [by eexists _, _|].
    destruct (2 <? s4_step s) eqn:Ehi; cbn; [by eexists _, _|].
    apply Z.ltb_ge in Elo, Ehi.
    assert (s4_step s = 0 \/ s4_step s = 1 \/ s4_step s = 2) as [E|[E|E]] by lia;
      rewrite E; cbn;
      match goal with
      | |- context [expected !! ?n] =>
          let v := eval vm_compute in (expected !! n) in
          change (expected !! n) with v
      end; cbn;
      destruct (str_eqb txt _); cbn; by eexists _, _.
Qed.

(** X16.  Adding an item twice is adding it once; what was held stays at
    the front of the inventory in its order, the inventory grows by at most
    one item, and an inventory without duplicates stays without. *)
Theorem add_item_twice (it : option str) (s : Escape) :
  add_item it (add_item it s) = add_item it s /\
  inventory s `prefix_of` inventory (add_item it s) /\
  (length (inventory (add_item it s)) <= S (length (inventory s)))%nat /\
  (NoDup (inventory s) -> NoDup (inventory (add_item it s))).
Proof.
  unfold add_item.
  destruct it as [[|c it]|]; try (split_and!; [done|done|lia|done]).
  unfold str_in. destruct (decide (c :: it ∈ inventory s)) as [Hin|Hin].
  - rewrite !(bool_decide_eq_true_2 _ Hin). split_and!; [done|done|lia|done].
  - rewrite (bool_decide_eq_false_2 _ Hin). cbn.
    rewrite bool_decide_eq_true_2 by (apply elem_of_app; right; left).
    split_and!.
    + done.
    + by apply prefix_app_r.
    + rewrite length_app. cbn. lia.
    + intros Hnd. apply NoDup_app. split_and!; [done| |apply NoDup_singleton].
      by intros x Hx ->%list_elem_of_singleton.
Qed.

End Tables.

(** ** The tokens of room 10 *)

Section Tokens.

Context (U : Unicode).

Lemma issubset_ext (l l' : list str) (m : gset str) :
  (forall x, x ∈ l <-> x ∈ l') -> issubset l m = issubset l' m.
Proof.
  intros H. unfold issubset. apply bool_decide_ext. split; intros Hs x Hx.
  - apply Hs. apply elem_of_list_to_set. apply elem_of_list_to_set in Hx.
    by apply H.
  - apply Hs. apply elem_of_list_to_set. apply elem_of_list_to_set in Hx.
    by apply H.
Qed.

(** X17.  A room-10 submission that is accepted names at least two
    different non-empty tokens that are both in the inventory, up to
    normal form: a player who holds fewer than two items cannot finish. *)
Theorem room10_needs_two_items (raw : str) (inv : list str) (jok : Z) :
  fst (validate_room_10 U raw inv jok) = true ->
  exists x y, x <> y /\ x <> [] /\ y <> [] /\
    x ∈ map (normalize U) (split_on 44 raw) /\
    y ∈ map (normalize U) (split_on 44 raw) /\
    x ∈ map (normalize U) inv /\ y ∈ map (normalize U) inv.
Proof.
  intros Hv.
  destruct (validate_room_10_cases U raw inv jok) as (_ & H3 & H2 & H01).
  cbn zeta in *.
  pose proof (unique_tokens_NoDup U raw) as Hnd.
  destruct (unique_tokens_sublist U raw) as [_ Hmem].
  assert (forall x, x ∈ unique_tokens U raw ->
            x <> [] /\ x ∈ map (normalize U) (split_on 44 raw)) as Htok.
  { intros x Hx. by apply nonempty_tokens_spec, Hmem. }
  destruct (unique_tokens U raw) as [|x [|y rest]] eqn:E.
  - rewrite H01 in Hv by (left; cbn; lia). done.
  - rewrite H01 in Hv by (left; cbn; lia). done.
  - assert (x ∈ map (normalize U) inv /\ y ∈ map (normalize U) inv) as [Hx Hy].
    { destruct rest as [|z rest].
      - destruct (Z.ltb_spec 0 jok) as [Hj|Hj].
        + destruct (H2 eq_refl Hj) as [Hf _]. rewrite Hf in Hv.
          pose proof (proj1 (issubset_spec _ _) Hv) as Hsub.
          split; apply Hsub; in_list.
        + rewrite H01 in Hv by (right; cbn; lia). done.
      - destruct H3 as [Hf _]; [cbn; lia|]. rewrite Hf in Hv.
        pose proof (proj1 (issubset_spec _ _) Hv) as Hsub.
        split; apply Hsub; in_list. }
    destruct (Htok x) as [? ?]; [in_list|].
    destruct (Htok y) as [? ?]; [in_list|].
    exists x, y. split_and!; try done.
    intros ->. apply NoDup_cons in Hnd as [Hnd _]. apply Hnd. left.
Qed.

(** X18.  The order of the tokens does not matter while there are at most
    three different ones: two submissions whose unique tokens are a
    permutation of one another get the same verdict.  (With more than three
    the first three decide.) *)
Theorem room10_any_order (raw raw' : str) (inv : list str) (jok : Z) :
  unique_tokens U raw ≡ₚ unique_tokens U raw' ->
  (length (unique_tokens U raw) <= 3)%nat ->
  validate_room_10 U raw inv jok = validate_room_10 U raw' inv jok.
Proof.
  intros Hp Hlen. pose proof (Permutation_length Hp) as Hl.
  assert (forall x, x ∈ unique_tokens U raw <-> x ∈ unique_tokens U raw') as Hmem.
  { intros x. by rewrite Hp. }
  unfold validate_room_10. fold (unique_tokens U raw) (unique_tokens U raw').
  rewrite <- Hl.
  destruct (Nat.leb_spec 3 (length (unique_tokens U raw))) as [H3|H3].
  - rewrite !take_ge by lia. f_equal. by apply issubset_ext.
  - destruct (_ && _); [|done]. f_equal. by apply issubset_ext.
Qed.

(** X19.  The unique tokens of a submission are the non-empty normal forms
    of its comma-separated pieces, each once, in the order of their first
    occurrence: the token that occurs first stands first.  They are the
    only list with these properties. *)
Theorem unique_tokens_first_occurrences (raw : str) :
  let u := unique_tokens U raw in
  NoDup u /\
  sublist u (map (normalize U) (split_on 44 raw)) /\
  (forall x, x ∈ u <->
             x <> [] /\ exists piece, piece ∈ split_on 44 raw /\ x = normalize U piece) /\
  (forall x, x ∈ u <-> x ∈ tokens U raw) /\
  in_order_of_first_occurrence u (tokens U raw) /\
  u = first_occurrences (tokens U raw) /\
  (forall v, NoDup v -> (forall x, x ∈ v <-> x ∈ tokens U raw) ->
             in_order_of_first_occurrence v (tokens U raw) -> v = u).
Proof.
  cbn zeta. split_and!.
  - apply unique_tokens_NoDup.
  - destruct (unique_tokens_sublist U raw) as [Hsub _].
    etrans; [exact Hsub|]. clear Hsub.
    induction (split_on 44 raw) as [|p parts IH]; cbn; [done|].
    destruct (normalize U p); [by apply sublist_cons|by apply sublist_skip].
  - intros x. destruct (unique_tokens_sublist U raw) as [_ Hmem].
    rewrite Hmem, nonempty_tokens_spec, list_elem_of_fmap.
    split; intros [Hne (p & H1 & H2)]; split; try done; by exists p.
  - intros x. rewrite unique_tokens_first. apply first_occurrences_elem.
  - rewrite unique_tokens_first. apply first_occurrences_in_order.
  - apply unique_tokens_first.
  - intros v Hnd Hmem Hord. rewrite unique_tokens_first.
    by apply first_occurrences_unique.
Qed.

End Tokens.

(** ** Strings *)

Section Text.

Context (U : Unicode).

Lemma split_on_nonempty (sep : N) (s : str) : split_on sep s <> [].
Proof.
  induction s as [|c s IH]; cbn; [done|].
  destruct (N.eqb c sep); [done|]. by destruct (split_on sep s).
Qed.

Lemma join_cons_char (sep c : N) (w : str) (ws : list str) :
  join [sep] ((c :: w) :: ws) = c :: join [sep] (w :: ws).
Proof. by destruct ws. Qed.

Lemma split_on_clean (sep : N) (w : str) : sep ∉ w -> split_on sep w = [w].
Proof.
  induction w as [|c w IH]; [done|]. intros Hw. cbn.
  destruct (N.eqb_spec c sep) as [->|Hc]; [exfalso; apply Hw; left|].
  rewrite IH; [done|]. intros H. apply Hw. by right.
Qed.

Lemma split_on_app (sep : N) (w t : str) :
  sep ∉ w -> split_on sep (w ++ sep :: t) = w :: split_on sep t.
Proof.
  induction w as [|c w IH]; intros Hw; cbn.
  - by rewrite N.eqb_refl.
  - destruct (N.eqb_spec c sep) as [->|Hc]; [exfalso; apply Hw; left|].
    rewrite IH; [done|]. intros H. apply Hw. by right.
Qed.

(** X20.  Splitting at a separator and joining with it are inverse to one
    another: joining the pieces of a string gives the string back, the
    pieces are never an empty list and hold no separator, and a non-empty
    list of pieces without separator is what splitting their join gives. *)
Theorem split_on_join (sep : N) :
  (forall s, join [sep] (split_on sep s) = s /\
             split_on sep s <> [] /\
             Forall (fun w => sep ∉ w) (split_on sep s)) /\
  (forall parts, parts <> [] -> Forall (fun w => sep ∉ w) parts ->
                 split_on sep (join [sep] parts) = parts).
Proof.
  split.
  - intros s. split_and!; [|apply split_on_nonempty|].
    + induction s as [|c s IH]; cbn; [done|].
      destruct (N.eqb_spec c sep) as [->|Hc].
      * pose proof (split_on_nonempty sep s).
        destruct (split_on sep s) as [|w ws] eqn:E; [done|]. cbn in *. by rewrite IH.
      * pose proof (split_on_nonempty sep s).
        destruct (split_on sep s) as [|w ws] eqn:E; [done|].
        rewrite join_cons_char. by rewrite IH.
    + induction s as [|c s IH]; cbn.
      * repeat constructor. by intros ?%elem_of_nil.
      * destruct (N.eqb_spec c sep) as [->|Hc].
        -- constructor; [by intros ?%elem_of_nil|done].
        -- destruct (split_on sep s) as [|w ws].
           ++ repeat constructor. by intros [?|?%elem_of_nil]%elem_of_cons.
           ++ apply Forall_cons in IH as [Hw Hws]. constructor; [|done].
              by intros [?|?]%elem_of_cons.
  - induction parts as [|w parts IH]; [done|]. intros _ [Hw Hps]%Forall_cons.
    destruct parts as [|w' parts'].
    + by apply split_on_clean.
    + change (join [sep] (w :: w' :: parts'))
        with (w ++ sep :: join [sep] (w' :: parts')).
      rewrite split_on_app by done. by rewrite IH.
Qed.

(** X21.  The normal form is clean: it has no white space at either end,
    its white space is single spaces between words (splitting it and
    joining with a space gives it back), and it holds no mark of category
    Mn. *)
Theorem normal_form_is_clean (s : str) :
  let t := normalize U s in
  strip U t = t /\
  join [32%N] (split U t) = t /\
  (forall c, c ∈ t -> isspace U c = true -> c = 32%N) /\
  (forall c, c ∈ t -> is_Mn U c = false).
Proof.
  cbn zeta. destruct (normalize_shape U s) as (ws & E & Hws & HMn).
  split_and!; [| | |done].
  - rewrite E. by apply strip_join.
  - rewrite E. by rewrite split_join.
  - rewrite E. intros c [->|(w & Hw & Hc)]%join_chars Hsp; [done|].
    rewrite Forall_forall in Hws. destruct (Hws w Hw) as [_ Hchars].
    rewrite Forall_forall in Hchars. by rewrite (Hchars c Hc) in Hsp.
Qed.

End Text.

(** ** Answers and hints keep apart *)

Section Apart.

Context (U : Unicode) (env : Env).

(** X22.  A text never counts as a hint and a hint never counts as an
    attempt.  A text leaves the hint counters and the start time alone, and
    the penalty too but for the 60 seconds an optional room takes off; a
    hint request leaves the attempts, the inventory, the jokers, the
    optional rooms, the room-4 step and the start time alone. *)
Theorem answers_and_hints_keep_apart (raw : str) (s : Escape) :
  let t := final (on_text_st U env raw s) in
  let h := final (cmd_pista s) in
  (hints_used t = hints_used s /\ start_ts t = start_ts s /\
   (penalty_sec t = penalty_sec s \/ penalty_sec t = Z.max 0 (penalty_sec s - 60))) /\
  (attempts h = attempts s /\ inventory h = inventory s /\ jokers h = jokers s /\
   optional_done h = optional_done s /\ in_optional h = in_optional s /\
   s4_step h = s4_step s /\ start_ts h = start_ts s).
Proof.
  cbn zeta. split.
  - pose proof (on_text_st_outcome U env raw s) as Hout.
    destruct Hout as [ |o Ho| | | | | | |used]; unfold enter_room, mark_done;
      repeat match goal with
             | |- context [add_item ?it ?x] =>
                 rewrite (add_item_only_inventory it x);
                 generalize (inventory (add_item it x)); intro
             end;
      repeat case_match; cbn; split_and!; try done; try by left.
    all: destruct o; cbn; first [done | by left | by right].
  - destruct (cmd_pista_outcome s) as [->|[->|[[Hf ->]|[Hf ->]]]]; cbn; done.
Qed.

End Apart.

(** ** The properties above on the games of the scenarios *)

Section Examples.

Import Excerpt.

Ltac computed := vm_compute; first [reflexivity | discriminate | done].

Ltac built :=
  cbv [whole_game three_rooms two_rooms to_room_10_with_joker app presses says];
  repeat constructor; cbn;
  first [done | by exists 3 | by exists 6 | by exists 8].

Lemma rooms_in_range_witness :
  let s := st 70 (run ucd whole_game no_data) in
  Forall (fun ev => built_by_bot (snd ev)) whole_game /\
  0 <= room s <= 10 /\ 0 <= s4_step s <= 3.
Proof.
  intros s.
  assert (H : Forall (fun ev => built_by_bot (snd ev)) whole_game) by built.
  split; [exact H|]. exact (rooms_in_range ucd whole_game 70 H).
Defined.

Lemma no_exception_witness :
  Forall (fun ev => built_by_bot (snd ev)) three_rooms /\
  built_by_bot (Pressed (opt_skip OptA 4) true) /\
  raised_by ucd (at_ 13) (Pressed (opt_skip OptA 4) true)
    (run ucd three_rooms no_data) = false.
Proof.
  assert (H : Forall (fun ev => built_by_bot (snd ev)) three_rooms) by built.
  assert (Hev : built_by_bot (Pressed (opt_skip OptA 4) true)) by (by exists 3).
  split; [exact H|]. split; [exact Hev|].
  exact (no_exception ucd three_rooms (at_ 13) _ H Hev).
Defined.

Lemma score_falls_with_time_witness :
  let s := st 9 (run ucd two_rooms no_data) in
  start_ts s = Some 0 /\ 100 <= 200 /\
  0 <= stats_score (compute_score 200 201 s)
    <= stats_score (compute_score 100 100 s).
Proof.
  intros s. assert (Hts : start_ts s = Some 0) by computed.
  assert (H : 100 <= 200) by lia.
  split; [exact Hts|]. split; [exact H|].
  exact (score_falls_with_time s 0 100 100 200 201 Hts H).
Defined.

Lemma two_hints_cost_witness :
  let s := st 2 (run ucd [presses 0 mode_individual; presses 1 enter_1] no_data) in
  playing s /\ is_Some (ROOMS (room s)) /\ hints_used s !! room s = None /\
  0 <= free_hints s /\
  hints_used (final (cmd_pista (final (cmd_pista s)))) !! room s = Some 2.
Proof.
  intros s.
  assert (Hp : playing s) by (unfold playing; repeat split; computed).
  assert (Hd : is_Some (ROOMS (room s))) by (vm_compute; eexists; reflexivity).
  assert (Hh : hints_used s !! room s = None) by computed.
  assert (Hf : 0 <= free_hints s) by computed.
  split; [exact Hp|]. split; [exact Hd|]. split; [exact Hh|]. split; [exact Hf|].
  destruct Hd as [data Hd].
  exact (proj1 (two_hints_cost s data Hp Hd Hh Hf)).
Defined.

Lemma group_mode_is_permanent_witness :
  let ctx := run ucd [(at_ 0, Pressed mode_group false)] no_data in
  group_chat ctx /\
  group_chat (fst (handle ucd (at_ 1) (Text (Some (lit "hola"))) ctx)).
Proof.
  intros ctx.
  assert (Hg : group_chat ctx) by (vm_compute; eexists; split; reflexivity).
  split; [exact Hg|].
  exact (proj1 (group_mode_is_permanent ucd (at_ 1) (Text (Some (lit "hola"))) ctx Hg)).
Defined.

Lemma individual_play_leaves_shared_record_witness :
  let ctx := run ucd two_rooms no_data in
  let ev := Text (Some (lit "desierto")) in
  ~ group_chat ctx /\ ev <> Pressed mode_group false /\
  chat_data (fst (handle ucd (at_ 12) ev ctx)) = chat_data ctx.
Proof.
  intros ctx ev.
  assert (Hno : ~ group_chat ctx).
  { intros (e & He & _). vm_compute in He. discriminate He. }
  assert (Hev : ev <> Pressed mode_group false) by discriminate.
  split; [exact Hno|]. split; [exact Hev|].
  exact (individual_play_leaves_shared_record ucd (at_ 12) ev ctx Hno Hev).
Defined.

Lemma completed_only_in_room_10_witness :
  let ctx := run ucd to_room_10_with_joker no_data in
  let ev := Text (Some (lit "Renuncia, ORACION")) in
  let before := st 70 ctx in
  completed (st 71 (fst (handle ucd (at_ 70) ev ctx))) = true /\
  (completed before = true \/
   exists raw, ev = Text (Some raw) /\ playing before /\ room before = 10 /\
     fst (validate_room_10 ucd raw (inventory before) (jokers before)) = true).
Proof.
  intros ctx ev before.
  assert (H : completed (st 71 (fst (handle ucd (at_ 70) ev ctx))) = true) by computed.
  split; [exact H|]. exact (completed_only_in_room_10 ucd (at_ 70) ev ctx 71 H).
Defined.

Lemma offer_paths_agree_witness :
  OPTIONAL_OFFER_POINTS 6 = Some (OptB, 7) /\
  6 ∈ [3; 6; 8] /\ 7 = 6 + 1 /\ back_to (OPTIONALS OptB) = 7 /\ is_Some (ROOMS 7).
Proof.
  assert (H : OPTIONAL_OFFER_POINTS 6 = Some (OptB, 7)) by reflexivity.
  split; [exact H|]. exact (offer_paths_agree 6 OptB 7 H).
Defined.

Lemma room10_needs_two_items_witness :
  let s := st 70 (run ucd to_room_10_with_joker no_data) in
  let raw := lit "Renuncia, ORACION" in
  fst (validate_room_10 ucd raw (inventory s) (jokers s)) = true /\
  exists x y, x <> y /\ x <> [] /\ y <> [] /\
    x ∈ map (normalize ucd) (split_on 44 raw) /\
    y ∈ map (normalize ucd) (split_on 44 raw) /\
    x ∈ map (normalize ucd) (inventory s) /\ y ∈ map (normalize ucd) (inventory s).
Proof.
  intros s raw.
  assert (H : fst (validate_room_10 ucd raw (inventory s) (jokers s)) = true)
    by computed.
  split; [exact H|]. exact (room10_needs_two_items ucd raw (inventory s) (jokers s) H).
Defined.

Lemma room10_any_order_witness :
  let s := st 70 (run ucd to_room_10_with_joker no_data) in
  let raw := lit "Renuncia, ORACION" in
  let raw' := lit "oracion,renuncia,, Oracion" in
  unique_tokens ucd raw ≡ₚ unique_tokens ucd raw' /\
  (length (unique_tokens ucd raw) <= 3)%nat /\
  validate_room_10 ucd raw (inventory s) (jokers s)
    = validate_room_10 ucd raw' (inventory s) (jokers s).
Proof.
  intros s raw raw'.
  assert (Hp : unique_tokens ucd raw ≡ₚ unique_tokens ucd raw')
    by (vm_compute; apply perm_swap).
  assert (Hl : (length (unique_tokens ucd raw) <= 3)%nat)
    by (vm_compute; repeat constructor).
  split; [exact Hp|]. split; [exact Hl|].
  exact (room10_any_order ucd raw raw' (inventory s) (jokers s) Hp Hl).
Defined.

End Examples.
